(** * iconikWasabiMD5: checksum_boto.py

    A shallow embedding of [src/checksum_boto.py] and the properties of its
    specification.  The script walks a bucket of an S3-compatible store,
    computes the MD5 of every object and stores it next to the object under
    the key [<key>.md5].

    Layout of the development:
    - [MD5]: RFC 1321 on 32-bit words held in [Z], once as the one-shot
      reference and once as the incremental object of [hashlib];
    - the world the script runs in (the bucket, the behaviour of the
      transport, the trace of requests and sleeps, the log) and the error
      monad over it;
    - [Tenacity]: the [@retry] decorator of the library of that name;
    - the functions of the script, under their own names;
    - the lemmas on the digest, the reading loop, the retry loop and one
      task, and the properties of the specification, [C1] to [C10].

    Keys are held as their UTF-8 bytes.  [str.lower] is Python's and is
    not written out: the script is modelled over it ([StrLower]), and the
    sample runs take it on keys of ASCII characters.  [exn] covers the
    subclasses of [Exception]. *)

From Stdlib Require Import ZArith List String Ascii QArith Qminmax Lia Bool.
From Stdlib.Strings Require Import Byte.
From stdpp Require Import base option gmap strings.
From Equations Require Import Equations.
Import ListNotations.

Local Open Scope Z_scope.

(** ** MD5 (RFC 1321) *)

Module MD5.

(** A 32-bit word is a [Z] kept in [0, 2^32) by [wrap32]. *)
Definition wrap32 (x : Z) : Z := Z.land x 0xffffffff.

Definition add32 (x y : Z) : Z := wrap32 (x + y).

Definition not32 (x : Z) : Z := Z.lxor x 0xffffffff.

Definition rotl32 (x n : Z) : Z :=
  wrap32 (Z.lor (Z.shiftl x n) (Z.shiftr x (32 - n))).

(** [K i = floor (2^32 * abs (sin (i + 1)))]. *)
Definition K : list Z :=
  [ 0xd76aa478; 0xe8c7b756; 0x242070db; 0xc1bdceee;
    0xf57c0faf; 0x4787c62a; 0xa8304613; 0xfd469501;
    0x698098d8; 0x8b44f7af; 0xffff5bb1; 0x895cd7be;
    0x6b901122; 0xfd987193; 0xa679438e; 0x49b40821;
    0xf61e2562; 0xc040b340; 0x265e5a51; 0xe9b6c7aa;
    0xd62f105d; 0x02441453; 0xd8a1e681; 0xe7d3fbc8;
    0x21e1cde6; 0xc33707d6; 0xf4d50d87; 0x455a14ed;
    0xa9e3e905; 0xfcefa3f8; 0x676f02d9; 0x8d2a4c8a;
    0xfffa3942; 0x8771f681; 0x6d9d6122; 0xfde5380c;
    0xa4beea44; 0x4bdecfa9; 0xf6bb4b60; 0xbebfbc70;
    0x289b7ec6; 0xeaa127fa; 0xd4ef3085; 0x04881d05;
    0xd9d4d039; 0xe6db99e5; 0x1fa27cf8; 0xc4ac5665;
    0xf4292244; 0x432aff97; 0xab9423a7; 0xfc93a039;
    0x655b59c3; 0x8f0ccc92; 0xffeff47d; 0x85845dd1;
    0x6fa87e4f; 0xfe2ce6e0; 0xa3014314; 0x4e0811a1;
    0xf7537e82; 0xbd3af235; 0x2ad7d2bb; 0xeb86d391 ].

(** Per-round left-rotation amounts. *)
Definition R : list Z :=
  [ 7; 12; 17; 22; 7; 12; 17; 22; 7; 12; 17; 22; 7; 12; 17; 22;
    5;  9; 14; 20; 5;  9; 14; 20; 5;  9; 14; 20; 5;  9; 14; 20;
    4; 11; 16; 23; 4; 11; 16; 23; 4; 11; 16; 23; 4; 11; 16; 23;
    6; 10; 15; 21; 6; 10; 15; 21; 6; 10; 15; 21; 6; 10; 15; 21 ].

Definition chaining : Type := Z * Z * Z * Z.

Definition IV : chaining := (0x67452301, 0xefcdab89, 0x98badcfe, 0x10325476).

Definition byte_to_Z (b : byte) : Z := Z.of_N (Byte.to_N b).

Definition byte_of_Z (z : Z) : byte :=
  match Byte.of_N (Z.to_N (z mod 256)) with
  | Some b => b
  | None => x00
  end.

(** Little-endian decoding of a block into 32-bit words. *)
Fixpoint words_le (l : list byte) : list Z :=
  match l with
  | b0 :: b1 :: b2 :: b3 :: rest =>
      (byte_to_Z b0 + Z.shiftl (byte_to_Z b1) 8
       + Z.shiftl (byte_to_Z b2) 16 + Z.shiftl (byte_to_Z b3) 24)
      :: words_le rest
  | _ => []
  end.

(** The auxiliary function and the message word of operation [i]. *)
Definition mix (i : nat) (b c d : Z) : Z :=
  if (i <? 16)%nat then Z.lor (Z.land b c) (Z.land (not32 b) d)
  else if (i <? 32)%nat then Z.lor (Z.land d b) (Z.land (not32 d) c)
  else if (i <? 48)%nat then Z.lxor (Z.lxor b c) d
  else Z.lxor c (Z.lor b (not32 d)).

Definition word_index (i : nat) : nat :=
  if (i <? 16)%nat then i
  else if (i <? 32)%nat then (5 * i + 1) mod 16
  else if (i <? 48)%nat then (3 * i + 5) mod 16
  else (7 * i) mod 16.

Definition operation (M : list Z) (s : chaining) (i : nat) : chaining :=
  let '(a, b, c, d) := s in
  let f := add32 (add32 (add32 (mix i b c d) a) (nth i K 0))
                 (nth (word_index i) M 0) in
  (d, add32 b (rotl32 f (nth i R 0)), b, c).

(** One 64-byte block folded into the chaining value. *)
Definition compress (h : chaining) (block : list byte) : chaining :=
  let '(a0, b0, c0, d0) := h in
  let '(a, b, c, d) := fold_left (operation (words_le block)) (seq 0 64) h in
  (add32 a0 a, add32 b0 b, add32 c0 c, add32 d0 d).

(** Message length in bits, as the eight little-endian bytes of the
    trailer. *)
Definition length_bytes (nbytes : Z) : list byte :=
  map (fun k => byte_of_Z (Z.shiftr (8 * nbytes) (8 * Z.of_nat k))) (seq 0 8).

(** The padding of a message of [n] bytes: one [0x80], zeros up to 56
    modulo 64, the bit length. *)
Definition padding (n : nat) : list byte :=
  x80 :: repeat x00 ((119 - n mod 64) mod 64) ++ length_bytes (Z.of_nat n).

(** Hex rendering of the chaining value, least significant byte of each
    word first, in lower case as [hexdigest] prints it. *)
Definition hex_digit (n : Z) : ascii :=
  nth (Z.to_nat n)
      ["0"; "1"; "2"; "3"; "4"; "5"; "6"; "7";
       "8"; "9"; "a"; "b"; "c"; "d"; "e"; "f"]%char "0"%char.

Definition hex_byte (z : Z) : list ascii :=
  [hex_digit (Z.land (Z.shiftr z 4) 15); hex_digit (Z.land z 15)].

Definition hex_word (w : Z) : list ascii :=
  hex_byte (Z.land w 255) ++ hex_byte (Z.land (Z.shiftr w 8) 255)
  ++ hex_byte (Z.land (Z.shiftr w 16) 255)
  ++ hex_byte (Z.land (Z.shiftr w 24) 255).

Definition hex_chaining (h : chaining) : string :=
  let '(a, b, c, d) := h in
  string_of_list_ascii (hex_word a ++ hex_word b ++ hex_word c ++ hex_word d).

(** *** The reference: pad the whole message, then block by block *)

Fixpoint blocks (n : nat) (h : chaining) (l : list byte) : chaining :=
  match n with
  | O => h
  | S n' => blocks n' (compress h (firstn 64 l)) (skipn 64 l)
  end.

Definition md5_reference (msg : list byte) : string :=
  let padded := (msg ++ padding (List.length msg))%list in
  hex_chaining (blocks (List.length padded / 64) IV padded).

(** *** The incremental object ([hashlib.md5()])

    The object keeps the chaining value, the bytes of the block in
    progress and the number of bytes seen, as the C implementation
    behind [hashlib] does. *)
Record md5_object : Type := MkMd5 {
  state : chaining;
  pending_block : list byte;
  seen : nat
}.

Definition md5 : md5_object :=
  {| state := IV; pending_block := []; seen := 0 |}.

Definition update_byte (m : md5_object) (b : byte) : md5_object :=
  let buf := (pending_block m ++ [b])%list in
  if (List.length buf =? 64)%nat
  then {| state := compress (state m) buf; pending_block := []; seen := S (seen m) |}
  else {| state := state m; pending_block := buf; seen := S (seen m) |}.

Definition update (m : md5_object) (data : list byte) : md5_object :=
  fold_left update_byte data m.

(** [hexdigest] pads a copy of the object and prints its chaining value;
    the object itself is left as it was. *)
Definition hexdigest (m : md5_object) : string :=
  hex_chaining (state (update m (padding (seen m)))).

End MD5.

Definition bytes_of (s : string) : list byte := list_byte_of_string s.

(** ** The world of the script *)

(** The exceptions the script can meet.  [ClientError] is botocore's, with
    the code of [e.response['Error']['Code']]; [RetryError] is tenacity's and
    carries the exception of the last attempt; [OtherException] stands for
    every other subclass of [Exception] (botocore's connection and validation
    errors, read errors of the body stream). *)
Inductive exn : Type :=
| ClientError (code : string)
| RetryError (last_attempt : exn)
| OtherException (name : string).

(** The body of a response is read in pieces.  [Deliver k] is a read that
    hands out at most [S k] bytes even when more were asked for, [Broken e] a
    read that raises. *)
Inductive delivery : Type :=
| Deliver (short : nat)
| Broken (e : exn).

(** What the transport does with the next request it receives: serve it
    (delivering the body, when the response has one, in the given reads) or
    raise. *)
Inductive behaviour : Type :=
| Serve (reads : list delivery)
| Raise (e : exn).

Inductive request : Type :=
| HeadObject (Key : string)
| GetObject (Key : string)
| PutObject (Key : string) (Body : list byte)
| ListObjectsV2 (Prefix : string).

(** What a thread does that takes time or reaches the store. *)
Inductive event : Type :=
| Sleep (seconds : Q)
| Call (r : request).

(** The three messages [process_file] logs. *)
Inductive log_record : Type :=
| Skipping (object_key : string)
| Uploaded (object_key md5_key : string)
| Failed (object_key : string) (e : exn).

(** The bucket [BUCKET_NAME], the behaviour of the transport at the requests
    to come (an exhausted script serves), and what has happened so far. *)
Record world : Type := World {
  bucket : gmap string (list byte);
  script : list behaviour;
  trace : list event;
  log : list log_record
}.

Definition M (A : Type) : Type := world -> (exn + A) * world.

Definition ret {A : Type} (a : A) : M A := fun w => (inr a, w).

Definition raise {A : Type} (e : exn) : M A := fun w => (inl e, w).

Definition bind {A B : Type} (m : M A) (k : A -> M B) : M B :=
  fun w =>
    match m w with
    | (inl e, w') => (inl e, w')
    | (inr a, w') => k a w'
    end.

(** [try: m except Exception as e: h e] *)
Definition try_except {A : Type} (m : M A) (h : exn -> M A) : M A :=
  fun w =>
    match m w with
    | (inl e, w') => h e w'
    | (inr a, w') => (inr a, w')
    end.

#[global] Instance M_ret : MRet M := @ret.
#[global] Instance M_bind : MBind M := fun A B k m => bind m k.

Definition emit (e : event) : M unit :=
  fun w => (inr tt, {| bucket := bucket w; script := script w;
                       trace := trace w ++ [e]; log := log w |}).

Definition logging (r : log_record) : M unit :=
  fun w => (inr tt, {| bucket := bucket w; script := script w;
                       trace := trace w; log := log w ++ [r] |}).

(** [time.sleep] *)
Definition sleep (seconds : Q) : M unit := emit (Sleep seconds).

(** *** The streaming body of a response *)

Record StreamingBody : Type := Stream {
  pending : list byte;
  reads : list delivery
}.

(** [read(amt)]: up to [amt] bytes, at least one while bytes remain, none at
    the end of the stream. *)
Definition read (amt : nat) (s : StreamingBody) : exn + list byte * StreamingBody :=
  match reads s with
  | Broken e :: _ => inl e
  | Deliver k :: rest =>
      let n := Nat.min amt (S k) in
      inr (firstn n (pending s), {| pending := skipn n (pending s); reads := rest |})
  | [] =>
      inr (firstn amt (pending s), {| pending := skipn amt (pending s); reads := [] |})
  end.

Record response : Type := Response {
  ContentLength : Z;
  Body : StreamingBody
}.

(** *** The client ([s3_client]) *)

(** One request over the transport: it is recorded, the next behaviour of
    the script is consumed, and the store serves it unless the script says
    otherwise. *)
Definition transport {A : Type} (r : request)
    (serve : list delivery -> gmap string (list byte) ->
             (exn + A) * gmap string (list byte)) : M A :=
  fun w =>
    match hd (Serve []) (script w) with
    | Raise e =>
        (inl e, {| bucket := bucket w; script := tl (script w);
                   trace := trace w ++ [Call r]; log := log w |})
    | Serve rs =>
        let '(res, b) := serve rs (bucket w) in
        (res, {| bucket := b; script := tl (script w);
                 trace := trace w ++ [Call r]; log := log w |})
    end.

Definition head_object (Key : string) : M unit :=
  transport (HeadObject Key)
    (fun _ b => match b !! Key with
                | Some _ => (inr tt, b)
                | None => (inl (ClientError "404"), b)
                end).

Definition get_object (Key : string) : M response :=
  transport (GetObject Key)
    (fun rs b => match b !! Key with
                 | Some content =>
                     (inr {| ContentLength := Z.of_nat (List.length content);
                             Body := {| pending := content; reads := rs |} |}, b)
                 | None => (inl (ClientError "NoSuchKey"), b)
                 end).

Definition put_object (Key : string) (body : list byte) : M unit :=
  transport (PutObject Key body) (fun _ b => (inr tt, <[Key := body]> b)).

(** ** tenacity's [@retry] *)

Module Tenacity.

(** [retry_if_exception_type(botocore.exceptions.ClientError)] *)
Definition retry_if_ClientError (e : exn) : bool :=
  match e with
  | ClientError _ => true
  | _ => false
  end.

(** [wait_exponential(multiplier, min, max)] after attempt number
    [attempt_number]. *)
Definition wait_exponential (multiplier min max : Q) (attempt_number : nat) : Q :=
  Qmax (Qmax 0 min)
       (Qmin (multiplier * inject_Z (2 ^ Z.of_nat (attempt_number - 1))) max).

(** The attempts from number [attempt_number] on, [retries_left] of them
    still allowed after this one.  An exception outside [retry] is raised
    as it is; when [stop] is reached the decorator raises [RetryError]
    ([reraise] is left at its default). *)
Fixpoint attempts {A : Type} (retry : exn -> bool) (wait : nat -> Q)
    (retries_left attempt_number : nat) (f : M A) : M A :=
  fun w =>
    match f w with
    | (inr a, w') => (inr a, w')
    | (inl e, w') =>
        if retry e then
          match retries_left with
          | O => (inl (RetryError e), w')
          | S k =>
              match sleep (wait attempt_number) w' with
              | (_, w'') => attempts retry wait k (S attempt_number) f w''
              end
          end
        else (inl e, w')
    end.

(** [@retry(retry=..., stop=stop_after_attempt(n), wait=...)] *)
Definition retry {A : Type} (retry_on : exn -> bool) (stop_after_attempt : nat)
    (wait : nat -> Q) (f : M A) : M A :=
  attempts retry_on wait (stop_after_attempt - 1) 1 f.

End Tenacity.

(** ** The script *)

(** [SKIP_EXTENSIONS]; only membership is asked of the set. *)
Definition SKIP_EXTENSIONS : list string :=
  [".pfk"; ".pek"; ".cfa"; ".mpegindex"]%string.

(** [GET_LIMIT], in operations per second. *)
Definition GET_LIMIT : Q := 16.

(** The size of one read, [1024 * 1024]. *)
Definition MiB : nat := 1024 * 1024.
#[global] Opaque MiB.

Definition rate_limited_get (object_key : string) : M response :=
  Tenacity.retry Tenacity.retry_if_ClientError 5
    (Tenacity.wait_exponential 1 1 16)
    (sleep (1 / GET_LIMIT) ;; get_object object_key).

Definition rate_limited_put (object_key : string) (body : list byte) : M unit :=
  Tenacity.retry Tenacity.retry_if_ClientError 5
    (Tenacity.wait_exponential 1 1 16)
    (sleep (1 / GET_LIMIT) ;; put_object object_key body).

(** The progress bar of [tqdm]: the announced total and the count so far. *)
Record tqdm : Type := Tqdm {
  total : Z;
  n : Z
}.

Definition tqdm_update (bar : tqdm) (k : Z) : tqdm :=
  {| total := total bar; n := n bar + k |}.

Definition inspect {A : Type} (a : A) : {b : A | a = b} := exist _ a eq_refl.

(** The [while True] loop of [calc_hash_md5]: it ends at the first empty
    read, and every other read shortens what is left of the stream. *)
Equations? hash_loop (file_stream : StreamingBody) (md5 : MD5.md5_object)
    (file_pbar : tqdm) : exn + MD5.md5_object * tqdm
  by wf (List.length (pending file_stream)) lt :=
  hash_loop file_stream md5 file_pbar with inspect (read MiB file_stream) := {
    | exist _ (inl e) _ => inl e
    | exist _ (inr ([], _)) _ => inr (md5, file_pbar)
    | exist _ (inr (b :: chunk, rest)) H =>
        hash_loop rest (MD5.update md5 (b :: chunk))
                  (tqdm_update file_pbar (Z.of_nat (List.length (b :: chunk)))) }.
Proof.
  unfold read in H.
  destruct (reads file_stream) as [|[k|e] ds]; inversion H; subst; clear H.
  all: cbn [pending]; rewrite length_skipn.
  all: match goal with
       | H : firstn ?k ?l = _ :: _ |- _ =>
           assert (0 < k /\ 0 < List.length l)%nat
             by (destruct k, l; simpl in H; try discriminate; simpl; lia)
       end; lia.
Qed.

Definition calc_hash_md5 (file_stream : StreamingBody) (file_size : Z) : exn + string :=
  match hash_loop file_stream MD5.md5 {| total := file_size; n := 0 |} with
  | inl e => inl e
  | inr (md5, _) => inr (MD5.hexdigest md5)
  end.

(** A computation that touches nothing of the world but may raise. *)
Definition lift {A : Type} (r : exn + A) : M A := fun w => (r, w).

(** The body of the outer [try] of [process_file]. *)
Definition process_file_body (object_key : string) : M unit :=
  let md5_key := (object_key ++ ".md5")%string in
  found ← try_except
            (head_object md5_key ;;
             logging (Skipping object_key) ;;
             mret true)
            (fun e => match e with
                      | ClientError code =>
                          if negb (String.eqb code "404") then raise e else mret false
                      | _ => raise e
                      end) ;
  if found : bool then mret tt
  else
    response ← rate_limited_get object_key ;
    let file_size := ContentLength response in
    md5_hash ← lift (calc_hash_md5 (Body response) file_size) ;
    rate_limited_put md5_key
      (bytes_of (md5_hash ++ "  " ++ object_key ++ String "010"%char EmptyString)) ;;
    logging (Uploaded object_key md5_key).

Definition process_file (object_key : string) : M unit :=
  try_except (process_file_body object_key)
             (fun e => logging (Failed object_key e)).

(** [str.lower], the lower case of Python's strings.  It belongs to the
    language and covers all of Unicode; the script is modelled for whatever
    function it is. *)
Class StrLower : Type := lower : string -> string.

(** [str.lower] on keys of ASCII characters, where it turns [A] to [Z]
    into [a] to [z] and leaves the rest: the instance the sample runs are
    evaluated at. *)
Definition lower_ascii (c : ascii) : ascii :=
  let k := nat_of_ascii c in
  if ((65 <=? k) && (k <=? 90))%nat then ascii_of_nat (k + 32) else c.

Fixpoint ascii_lower (s : string) : string :=
  match s with
  | EmptyString => EmptyString
  | String c s' => String (lower_ascii c) (ascii_lower s')
  end.

#[global] Instance ascii_keys : StrLower := ascii_lower.

(** The Kelvin sign (U+212A) in UTF-8; [str.lower] turns it into [k]. *)
Definition kelvin_sign : string :=
  String "226"%char (String "132"%char (String "170"%char EmptyString)).

(** [str.lower] on keys of ASCII characters and Kelvin signs. *)
Fixpoint kelvin_lower (s : string) : string :=
  match s with
  | EmptyString => EmptyString
  | String "226"%char (String "132"%char (String "170"%char s')) =>
      String "k"%char (kelvin_lower s')
  | String c s' => String (lower_ascii c) (kelvin_lower s')
  end.

Definition kelvin_keys : StrLower := kelvin_lower.

(** [str.endswith] with one suffix, and with a tuple of them. *)
Definition endswith (s suffix : string) : bool :=
  (String.length suffix <=? String.length s)%nat
  && String.eqb (substring (String.length s - String.length suffix)
                           (String.length suffix) s) suffix.

Definition endswith_any (s : string) (suffixes : list string) : bool :=
  existsb (endswith s) suffixes.

(** The listing of the store: the keys under the prefix, in the order of
    the store, in pages of [MaxKeys]; an empty listing is one empty page. *)
Definition MaxKeys : nat := 1000.

Fixpoint paginate_from (room : nat) (page keys : list string) : list (list string) :=
  match keys with
  | [] => [rev page]
  | k :: rest =>
      match room with
      | O => rev page :: paginate_from (MaxKeys - 1) [k] rest
      | S r => paginate_from r (k :: page) rest
      end
  end.

Definition listing (Prefix : string) (b : gmap string (list byte)) : list string :=
  List.filter (String.prefix Prefix) (map fst (map_to_list b)).

Definition paginate (Prefix : string) : M (list (list string)) :=
  fun w => (inr (paginate_from MaxKeys [] (listing Prefix (bucket w))), w).

(** The loop of [list_files] over the pages, with the keys it yields. *)
Fixpoint list_pages `{StrLower} (Prefix : string) (pages : list (list string)) :
    M (list string) :=
  match pages with
  | [] => mret []
  | Contents :: later =>
      transport (ListObjectsV2 Prefix) (fun _ b => (inr tt, b)) ;;
      sleep (1 / GET_LIMIT) ;;
      rest ← list_pages Prefix later ;
      mret (List.filter (fun Key => negb (endswith_any (lower Key) SKIP_EXTENSIONS))
                        Contents ++ rest)
  end.

Definition list_files `{StrLower} (Prefix : string) : M (list string) :=
  pages ← paginate Prefix ;
  list_pages Prefix pages.

(** The tasks of the pool, one after the other as a pool of one thread
    runs them ([--threads 1]); with more threads the tasks overlap, and
    nothing is stated here of the order in which they end. *)
Fixpoint run_tasks (all_files : list string) : M unit :=
  match all_files with
  | [] => mret tt
  | object_key :: later => process_file object_key ;; run_tasks later
  end.

(** [main] once its arguments are read: the listing, then the tasks.  Its
    two [logging.info] lines about the listing are not recorded: [log]
    holds the records of the tasks. *)
Definition main `{StrLower} (Prefix : string) : M unit :=
  all_files ← list_files Prefix ;
  run_tasks all_files.

(** *** Time

    A thread's clock moves with its sleeps; [call_times t tr] is the time
    of every request of [tr] that a thread starting at [t] sends, when
    nothing but sleeping takes time. *)
Fixpoint call_times (t : Q) (tr : list event) : list (Q * request) :=
  match tr with
  | [] => []
  | Sleep d :: rest => call_times (t + d) rest
  | Call r :: rest => (t, r) :: call_times t rest
  end.

(** ** Vocabulary of the statements *)

(** Sample buckets. *)
Definition one_object : gmap string (list byte) :=
  {[ "a.dat"%string := bytes_of "hello world" ]}.

Definition two_objects : gmap string (list byte) :=
  {[ "a.dat"%string := bytes_of "hello world";
     "b.dat"%string := bytes_of "abc" ]}.

Definition scenario : gmap string (list byte) :=
  {[ "a.dat"%string := bytes_of "hello world";
     "b.dat"%string := bytes_of "abc";
     "b.dat.md5"%string := bytes_of "900150983cd24fb0d6963f7d28e17f72  b.dat";
     "index.mpegindex"%string := bytes_of "" ]}.

(** What an [md5] object holds after [update]s that together fed [msg]. *)
Definition holds (m : MD5.md5_object) (msg : list byte) : Prop :=
  MD5.state m = MD5.blocks (List.length msg / 64) MD5.IV msg
  /\ MD5.pending_block m = skipn (64 * (List.length msg / 64)) msg
  /\ MD5.seen m = List.length msg.

(** The requests of a trace, in order. *)
Fixpoint calls (tr : list event) : list request :=
  match tr with
  | [] => []
  | Sleep _ :: rest => calls rest
  | Call r :: rest => r :: calls rest
  end.

(** A trace is throttled when each of its requests comes right after a
    sleep of [1 / GET_LIMIT] seconds. *)
Fixpoint throttled_after (slept : bool) (tr : list event) : bool :=
  match tr with
  | [] => true
  | Sleep d :: rest => throttled_after (Qeq_bool d (1 / GET_LIMIT)) rest
  | Call _ :: rest => slept && throttled_after false rest
  end.

Definition throttled (tr : list event) : bool := throttled_after false tr.

(** The world after one attempt of a rate-limited call: the sleep, the
    request, one behaviour of the script consumed. *)
Definition attempted (r : request) (w : world) : world :=
  {| bucket := bucket w; script := tl (script w);
     trace := trace w ++ [Sleep (1 / GET_LIMIT); Call r]; log := log w |}.

(** The world after the sleep tenacity takes between two attempts. *)
Definition backed_off (attempt_number : nat) (w : world) : world :=
  {| bucket := bucket w; script := script w;
     trace := trace w ++ [Sleep (Tenacity.wait_exponential 1 1 16 attempt_number)];
     log := log w |}.

(** The world after one request sent straight to the transport. *)
Definition called (r : request) (w : world) : world :=
  {| bucket := bucket w; script := tl (script w);
     trace := trace w ++ [Call r]; log := log w |}.

Definition logged (l : log_record) (w : world) : world :=
  {| bucket := bucket w; script := script w; trace := trace w;
     log := log w ++ [l] |}.

(** The body of a checksum record. *)
Definition checksum_record (md5_hash object_key : string) : list byte :=
  bytes_of (md5_hash ++ "  " ++ object_key ++ String "010"%char EmptyString).

(** The steps of [process_file] that follow the existence check, once the
    check has said that the record is missing. *)
Definition upload_steps (object_key : string) : M unit :=
  response ← rate_limited_get object_key ;
  md5_hash ← lift (calc_hash_md5 (Body response) (ContentLength response)) ;
  rate_limited_put (object_key ++ ".md5") (checksum_record md5_hash object_key) ;;
  logging (Uploaded object_key (object_key ++ ".md5")).

(** Two worlds with the same bucket and the same log. *)
Definition same_store (w w' : world) : Prop :=
  bucket w' = bucket w /\ log w' = log w.

(** A script that starts with one [ClientError] per code. *)
Definition failures (codes : list string) : list behaviour :=
  map (fun code => Raise (ClientError code)) codes.

(** Instants that are at least [gap] apart, the first of them at least
    [gap] after [prev]. *)
Fixpoint spaced (gap prev : Q) (ts : list Q) : Prop :=
  match ts with
  | [] => True
  | t :: later => (prev + gap <= t)%Q /\ spaced gap t later
  end.

Definition sleep_nonneg (e : event) : Prop :=
  match e with
  | Sleep d => (0 <= d)%Q
  | Call _ => True
  end.

(** The requests that move the content of an object. *)
Definition is_transfer (r : request) : Prop :=
  match r with
  | GetObject _ | PutObject _ _ => True
  | _ => False
  end.

(** A transport that cannot be reached at the first request. *)
Definition unreachable : world :=
  {| bucket := one_object;
     script := [Raise (OtherException "EndpointConnectionError")];
     trace := []; log := [] |}.

(** A transport that serves the head and the get, and whose body breaks at
    its first read. *)
Definition broken_read : world :=
  {| bucket := one_object;
     script := [Serve []; Serve [Broken (OtherException "ReadTimeoutError")]];
     trace := []; log := [] |}.

(** A transport that serves the head and the get and fails at the put. *)
Definition broken_put : world :=
  {| bucket := one_object;
     script := [Serve []; Serve []; Raise (OtherException "ConnectionClosedError")];
     trace := []; log := [] |}.

(** The same content, delivered at once and in short reads. *)
Definition whole_stream : StreamingBody :=
  {| pending := bytes_of "hello world"; reads := [] |}.

Definition cut_stream : StreamingBody :=
  {| pending := bytes_of "hello world"; reads := [Deliver 0; Deliver 3; Deliver 1] |}.

(** A transport that throttles the first request it receives. *)
Definition slow_down : world :=
  {| bucket := one_object; script := [Raise (ClientError "SlowDown")];
     trace := []; log := [] |}.

(** A transport that fails four times and then serves. *)
Definition four_failures : world :=
  {| bucket := one_object;
     script := failures ["SlowDown"; "SlowDown"; "SlowDown"; "RequestTimeout"]%string
               ++ [Serve []];
     trace := []; log := [] |}.

(** An error that reaches the caller after a single attempt, with no
    further sleep. *)
Definition immediate {A : Type} (f : M A) (r : request) (e : exn) (w : world) : Prop :=
  f w = (inl e, attempted r w).

(** The world after [k] failed attempts of a rate-limited call, each one
    followed by the sleep tenacity takes before the next; the first of them
    has number [i]. *)
Fixpoint after_failures (r : request) (i k : nat) (w : world) : world :=
  match k with
  | O => w
  | S k' => after_failures r (S i) k' (backed_off i (attempted r w))
  end.

(** The events of [k] failed attempts, with their sleeps. *)
Fixpoint failure_events (r : request) (i k : nat) : list event :=
  match k with
  | O => []
  | S k' =>
      [Sleep (1 / GET_LIMIT); Call r; Sleep (Tenacity.wait_exponential 1 1 16 i)]
      ++ failure_events r (S i) k'
  end.

(** The world after five attempts of a rate-limited call, the first four
    followed by their sleeps. *)
Definition five_attempts (r : request) (w : world) : world :=
  attempted r (after_failures r 1 4 w).

(** The world once the store has taken a body under a key. *)
Definition stored (Key : string) (body : list byte) (w : world) : world :=
  {| bucket := <[Key := body]> (bucket w); script := script w;
     trace := trace w; log := log w |}.

(** A transport that fails five times in a row. *)
Definition five_failures : world :=
  {| bucket := one_object;
     script := failures ["SlowDown"; "SlowDown"; "SlowDown"; "SlowDown";
                         "RequestTimeout"]%string;
     trace := []; log := [] |}.

(** The retry policy of the two decorators of the script. *)
Definition policy {A : Type} : nat -> nat -> M A -> M A :=
  Tenacity.attempts Tenacity.retry_if_ClientError (Tenacity.wait_exponential 1 1 16).

(** A stream none of whose reads raises. *)
Definition intact (s : StreamingBody) : Prop :=
  Forall (fun d => match d with Deliver _ => True | Broken _ => False end) (reads s).

(** A fresh run of the script against a bucket. *)
Definition fresh (b : gmap string (list byte)) : world :=
  {| bucket := b; script := []; trace := []; log := [] |}.

Definition kelvin_case : gmap string (list byte) :=
  {[ "a.dat"%string := bytes_of "hello world";
     ("clip.PF" ++ kelvin_sign)%string := bytes_of "" ]}.

Definition mixed_case : gmap string (list byte) :=
  {[ "a.dat"%string := bytes_of "hello world";
     "clip.PFK"%string := bytes_of "";
     "Index.MpegIndex"%string := bytes_of "" ]}.

(** The test [list_files] applies to a key before it yields it. *)
Definition kept_key `{StrLower} (Key : string) : bool :=
  negb (endswith_any (lower Key) SKIP_EXTENSIONS).

Definition is_hex (c : ascii) : Prop :=
  In c (list_ascii_of_string "0123456789abcdef").

(** The seconds a trace spends asleep. *)
Fixpoint slept (tr : list event) : Q :=
  match tr with
  | [] => 0
  | Sleep d :: rest => d + slept rest
  | Call _ :: rest => slept rest
  end.


(** ** The incremental object computes the reference digest *)

Section MD5_streaming.
Import MD5.

Lemma blocks_app (n : nat) (h : chaining) (l l' : list byte) :
  (64 * n <= List.length l)%nat ->
  blocks n h (l ++ l') = blocks n h l.
Proof.
  revert h l. induction n as [|n IH]; intros h l Hlen; simpl; [reflexivity|].
  rewrite firstn_app, skipn_app.
  replace (64 - List.length l)%nat with 0%nat by lia.
  simpl. rewrite app_nil_r.
  apply IH. rewrite length_skipn. lia.
Qed.

Lemma blocks_succ (n : nat) (h : chaining) (l : list byte) :
  blocks (S n) h l = compress (blocks n h l) (firstn 64 (skipn (64 * n) l)).
Proof.
  revert h l. induction n as [|n IH]; intros h l.
  - reflexivity.
  - change (blocks (S (S n)) h l)
      with (blocks (S n) (compress h (firstn 64 l)) (skipn 64 l)).
    rewrite IH. simpl blocks. rewrite skipn_skipn.
    replace (64 * n + 64)%nat with (64 * S n)%nat by lia. reflexivity.
Qed.

Lemma holds_update_byte (m : md5_object) (msg : list byte) (b : byte) :
  holds m msg -> holds (update_byte m b) (msg ++ [b]).
Proof.
  intros (Hst & Hbuf & Hseen).
  pose proof (Nat.div_mod_eq (List.length msg) 64) as Hdm.
  pose proof (Nat.mod_upper_bound (List.length msg) 64 ltac:(lia)) as Hr.
  set (q := (List.length msg / 64)%nat) in *.
  set (r := (List.length msg mod 64)%nat) in *.
  assert (Hpl : List.length (pending_block m) = r).
  { rewrite Hbuf, length_skipn. lia. }
  unfold holds, update_byte. rewrite !length_app, Hpl. cbn [List.length].
  destruct (Nat.eqb_spec (r + 1) 64) as [Hfull|Hpart];
    cbn [state pending_block seen].
  - assert (Hq : ((List.length msg + 1) / 64 = S q)%nat).
    { symmetry. apply (Nat.div_unique _ 64 (S q) 0); lia. }
    rewrite Hq, blocks_succ, blocks_app by lia.
    rewrite skipn_app, firstn_app, length_skipn.
    replace (64 * q - List.length msg)%nat with 0%nat by lia.
    replace (64 - (List.length msg - 64 * q))%nat with 1%nat by lia.
    rewrite firstn_all2 by (rewrite length_skipn; lia).
    cbn [skipn firstn]. rewrite Hst, Hbuf. repeat split; [|lia].
    symmetry. apply skipn_all2. rewrite length_app. cbn [List.length]. lia.
  - assert (Hq : ((List.length msg + 1) / 64 = q)%nat).
    { symmetry. apply (Nat.div_unique _ 64 q (r + 1)); lia. }
    rewrite Hq, blocks_app by lia.
    rewrite skipn_app.
    replace (64 * q - List.length msg)%nat with 0%nat by lia.
    cbn [skipn]. rewrite Hst, Hbuf. repeat split; lia.
Qed.

Lemma holds_update (data : list byte) :
  forall (m : md5_object) (msg : list byte),
    holds m msg -> holds (update m data) (msg ++ data).
Proof.
  induction data as [|b data IH]; intros m msg H.
  - rewrite app_nil_r. exact H.
  - change (update m (b :: data)) with (update (update_byte m b) data).
    replace (msg ++ b :: data)%list with ((msg ++ [b]) ++ data)%list
      by (rewrite <- app_assoc; reflexivity).
    apply IH, holds_update_byte, H.
Qed.

Lemma holds_md5 : holds md5 [].
Proof. repeat split. Qed.

Lemma length_bytes_length (n : Z) : List.length (length_bytes n) = 8%nat.
Proof. reflexivity. Qed.

Lemma padded_length (n : nat) :
  ((n + List.length (padding n)) mod 64 = 0)%nat.
Proof.
  unfold padding. cbn [List.length].
  rewrite length_app, repeat_length, length_bytes_length.
  pose proof (Nat.div_mod_eq n 64) as Hn.
  pose proof (Nat.mod_upper_bound n 64 ltac:(lia)) as Hr.
  set (r := (n mod 64)%nat) in *.
  pose proof (Nat.div_mod_eq (119 - r) 64) as Hz.
  pose proof (Nat.mod_upper_bound (119 - r) 64 ltac:(lia)) as Hzr.
  set (z := ((119 - r) mod 64)%nat) in *.
  symmetry.
  apply (Nat.mod_unique _ 64 (n / 64 + 2 - (119 - r) / 64)); lia.
Qed.

(** Feeding a message to a fresh object in any number of [update] calls
    and asking for [hexdigest] gives the reference digest of the
    message. *)
Lemma hexdigest_holds (m : md5_object) (msg : list byte) :
  holds m msg -> hexdigest m = md5_reference msg.
Proof.
  intros H. unfold hexdigest, md5_reference.
  pose proof (holds_update (padding (seen m)) m msg H) as (Hst & _ & _).
  destruct H as (_ & _ & Hseen). rewrite Hseen in *.
  rewrite Hst. reflexivity.
Qed.

Lemma update_app (m : md5_object) (a b : list byte) :
  update m (a ++ b) = update (update m a) b.
Proof. apply fold_left_app. Qed.

Lemma hex_digit_is_hex (n : Z) : is_hex (hex_digit n).
Proof.
  unfold is_hex, hex_digit.
  destruct (Z.to_nat n) as [|[|[|[|[|[|[|[|[|[|[|[|[|[|[|[|k]]]]]]]]]]]]]]]];
    try destruct k; simpl; repeat (first [left; reflexivity | right]).
Qed.

Lemma hex_chaining_length (h : chaining) : String.length (hex_chaining h) = 32%nat.
Proof. destruct h as [[[a b] c] d]. reflexivity. Qed.

Lemma hex_chaining_is_hex (h : chaining) :
  Forall is_hex (list_ascii_of_string (hex_chaining h)).
Proof.
  destruct h as [[[a b] c] d]. unfold hex_chaining.
  rewrite list_ascii_of_string_of_list_ascii.
  unfold hex_word, hex_byte. cbn [app].
  repeat (constructor; [apply hex_digit_is_hex|]). constructor.
Qed.

End MD5_streaming.

(** ** The reading loop *)

Section Reading.
Import MD5.

Lemma MiB_pos : (0 < MiB)%nat.
Proof. with_strategy transparent [MiB] (unfold MiB); lia. Qed.

Lemma firstn_nil_inv {A : Type} (k : nat) (l : list A) :
  (0 < k)%nat -> firstn k l = [] -> l = [].
Proof. destruct k, l; simpl; intros; try lia; congruence. Qed.

(** A read splits what is left of the stream, and is empty only at its
    end. *)
Lemma read_inr (s rest : StreamingBody) (chunk : list byte) :
  read MiB s = inr (chunk, rest) ->
  pending s = (chunk ++ pending rest)%list
  /\ (chunk = [] -> pending s = [])
  /\ reads rest = tl (reads s).
Proof.
  pose proof MiB_pos as Hpos. unfold read.
  destruct (reads s) as [|[k|e] ds]; intros H; inversion H; subst; clear H;
    cbn [pending reads tl]; rewrite firstn_skipn; repeat split;
    apply firstn_nil_inv; lia.
Qed.

Lemma read_intact (s : StreamingBody) :
  intact s ->
  exists chunk rest, read MiB s = inr (chunk, rest) /\ intact rest.
Proof.
  unfold intact, read. intros H.
  destruct (reads s) as [|[k|e] ds]; cbn [reads].
  - eexists _, _. split; [reflexivity|]. cbn [reads]. constructor.
  - eexists _, _. split; [reflexivity|]. cbn [reads].
    inversion H; assumption.
  - inversion H; subst. contradiction.
Qed.

Lemma hash_loop_step (s : StreamingBody) (m : md5_object) (bar : tqdm) :
  hash_loop s m bar =
  match read MiB s with
  | inl e => inl e
  | inr ([], _) => inr (m, bar)
  | inr (chunk, rest) =>
      hash_loop rest (update m chunk) (tqdm_update bar (Z.of_nat (List.length chunk)))
  end.
Proof.
  rewrite hash_loop_equation_1.
  generalize (inspect (read MiB s)). intros [r Hr].
  transitivity
    (match r with
     | inl e => inl e
     | inr ([], _) => inr (m, bar)
     | inr (chunk, rest) =>
         hash_loop rest (update m chunk)
                   (tqdm_update bar (Z.of_nat (List.length chunk)))
     end).
  - destruct r as [e|[[|b chunk] rest]]; reflexivity.
  - rewrite Hr. reflexivity.
Qed.

(** Whatever the loop returns has been fed the whole stream, and the
    progress bar has counted it. *)
Lemma hash_loop_inr (k : nat) :
  forall (s : StreamingBody) (m m' : md5_object) (bar bar' : tqdm),
    (List.length (pending s) < k)%nat ->
    hash_loop s m bar = inr (m', bar') ->
    m' = update m (pending s)
    /\ bar' = {| total := total bar;
                 n := n bar + Z.of_nat (List.length (pending s)) |}.
Proof.
  induction k as [|k IH]; intros s m m' bar bar' Hk; [lia|].
  rewrite hash_loop_step.
  destruct (read MiB s) as [e|[chunk rest]] eqn:Hread; [discriminate|].
  apply read_inr in Hread as (Hsplit & Hend & _).
  destruct chunk as [|b chunk].
  - intros H. inversion H; subst. rewrite (Hend eq_refl). split; [reflexivity|].
    destruct bar'; cbn. f_equal. lia.
  - intros H. apply IH in H.
    + destruct H as [-> ->]. rewrite Hsplit, update_app. split; [reflexivity|].
      unfold tqdm_update; cbn [total n]. f_equal.
      rewrite !length_app. cbn [List.length]. lia.
    + rewrite Hsplit, length_app in Hk. cbn [List.length] in Hk. lia.
Qed.

(** On a stream that does not break, the loop returns. *)
Lemma hash_loop_intact (k : nat) :
  forall (s : StreamingBody) (m : md5_object) (bar : tqdm),
    (List.length (pending s) < k)%nat ->
    intact s ->
    exists m' bar', hash_loop s m bar = inr (m', bar').
Proof.
  induction k as [|k IH]; intros s m bar Hk Hs; [lia|].
  rewrite hash_loop_step.
  destruct (read_intact s Hs) as (chunk & rest & Hread & Hrest).
  rewrite Hread. apply read_inr in Hread as (Hsplit & _ & _).
  destruct chunk as [|b chunk]; [eauto|].
  apply IH; [|exact Hrest].
  rewrite Hsplit, length_app in Hk. cbn [List.length] in Hk. lia.
Qed.

Lemma holds_fed (msg : list byte) : holds (update md5 msg) msg.
Proof. apply (holds_update msg md5 []), holds_md5. Qed.

(** The digest [calc_hash_md5] returns is the reference digest of the
    whole stream. *)
Lemma calc_hash_md5_inr (s : StreamingBody) (file_size : Z) (d : string) :
  calc_hash_md5 s file_size = inr d -> d = md5_reference (pending s).
Proof.
  unfold calc_hash_md5.
  destruct (hash_loop s md5 _) as [e|[m bar]] eqn:Hloop; [discriminate|].
  intros H; inversion H; subst; clear H.
  apply (hash_loop_inr (S (List.length (pending s)))) in Hloop as [-> _]; [|lia].
  apply hexdigest_holds, holds_fed.
Qed.

Lemma calc_hash_md5_intact (s : StreamingBody) (file_size : Z) :
  intact s -> calc_hash_md5 s file_size = inr (md5_reference (pending s)).
Proof.
  intros Hs.
  destruct (hash_loop_intact (S (List.length (pending s))) s md5
              {| total := file_size; n := 0 |} ltac:(lia) Hs) as (m & bar & Hloop).
  pose proof (calc_hash_md5_inr s file_size) as Hd.
  unfold calc_hash_md5 in *. rewrite Hloop in *.
  f_equal. apply Hd. reflexivity.
Qed.

Lemma md5_reference_length (msg : list byte) :
  String.length (md5_reference msg) = 32%nat.
Proof. apply hex_chaining_length. Qed.

Lemma md5_reference_is_hex (msg : list byte) :
  Forall is_hex (list_ascii_of_string (md5_reference msg)).
Proof. apply hex_chaining_is_hex. Qed.

End Reading.

(** ** Traces *)

Lemma calls_app (a b : list event) : calls (a ++ b) = (calls a ++ calls b)%list.
Proof.
  induction a as [|[d|r] a IH]; simpl; [reflexivity|exact IH|].
  rewrite IH. reflexivity.
Qed.

Lemma throttled_after_weaken (slept : bool) (tr : list event) :
  throttled_after false tr = true -> throttled_after slept tr = true.
Proof. destruct tr as [|[d|r] tr]; simpl; [reflexivity|auto|discriminate]. Qed.

Lemma throttled_after_app (a b : list event) :
  forall slept : bool,
    throttled_after slept a = true ->
    throttled_after false b = true ->
    throttled_after slept (a ++ b) = true.
Proof.
  induction a as [|[d|r] a IH]; intros slept Ha Hb; simpl in *.
  - apply throttled_after_weaken, Hb.
  - apply IH; assumption.
  - apply andb_true_iff in Ha as [-> Ha]. simpl. apply IH; assumption.
Qed.

Lemma throttled_app (a b : list event) :
  throttled a = true -> throttled b = true -> throttled (a ++ b) = true.
Proof. apply throttled_after_app. Qed.

(** ** The retry loop *)

Section Attempts.
Context {A : Type}.
Variable retry_on : exn -> bool.
Variable wait : nat -> Q.
Variable f : M A.

Local Abbreviation go := (@Tenacity.attempts A retry_on wait).

Lemma attempts_return (k i : nat) (w w' : world) (a : A) :
  f w = (inr a, w') -> go k i f w = (inr a, w').
Proof. intros H. destruct k; simpl; rewrite H; reflexivity. Qed.

Lemma attempts_raise (k i : nat) (w w' : world) (e : exn) :
  f w = (inl e, w') -> retry_on e = false -> go k i f w = (inl e, w').
Proof. intros H He. destruct k; simpl; rewrite H, He; reflexivity. Qed.

Lemma attempts_stop (i : nat) (w w' : world) (e : exn) :
  f w = (inl e, w') -> retry_on e = true ->
  go 0 i f w = (inl (RetryError e), w').
Proof. intros H He. simpl. rewrite H, He. reflexivity. Qed.

Lemma attempts_again (k i : nat) (w w' : world) (e : exn) :
  f w = (inl e, w') -> retry_on e = true ->
  go (S k) i f w = go k (S i) f (snd (sleep (wait i) w')).
Proof. intros H He. simpl. rewrite H, He. reflexivity. Qed.

(** What every failed attempt and every sleep preserve ([kept]) holds of
    a failed call; what a successful attempt establishes ([done]) holds
    of a successful one. *)
Variable kept : world -> world -> Prop.
Variable done : A -> world -> world -> Prop.
Hypothesis kept_trans : forall w1 w2 w3, kept w1 w2 -> kept w2 w3 -> kept w1 w3.
Hypothesis kept_sleep : forall d w, kept w (snd (sleep d w)).
Hypothesis kept_done : forall a w1 w2 w3, kept w1 w2 -> done a w2 w3 -> done a w1 w3.
Hypothesis f_kept : forall w e w', f w = (inl e, w') -> kept w w'.
Hypothesis f_done : forall w a w', f w = (inr a, w') -> done a w w'.

Lemma attempts_inv (k : nat) :
  forall (i : nat) (w : world),
    match go k i f w with
    | (inl _, w') => kept w w'
    | (inr a, w') => done a w w'
    end.
Proof.
  induction k as [|k IH]; intros i w.
  - destruct (f w) as [[e|a] w1] eqn:Hf.
    + destruct (retry_on e) eqn:He.
      * rewrite (attempts_stop _ _ _ _ Hf He). eapply f_kept, Hf.
      * rewrite (attempts_raise _ _ _ _ _ Hf He). eapply f_kept, Hf.
    + rewrite (attempts_return _ _ _ _ _ Hf). apply f_done, Hf.
  - destruct (f w) as [[e|a] w1] eqn:Hf.
    + destruct (retry_on e) eqn:He.
      * rewrite (attempts_again _ _ _ _ _ Hf He).
        specialize (IH (S i) (snd (sleep (wait i) w1))).
        assert (Hk : kept w (snd (sleep (wait i) w1))).
        { eapply kept_trans; [eapply f_kept, Hf|apply kept_sleep]. }
        destruct (Tenacity.attempts _ _ _ _ _ _) as [[e2|a2] w2].
        -- eapply kept_trans; eassumption.
        -- eapply kept_done; eassumption.
      * rewrite (attempts_raise _ _ _ _ _ Hf He). eapply f_kept, Hf.
    + rewrite (attempts_return _ _ _ _ _ Hf). apply f_done, Hf.
Qed.

(** The trace of a call whose every attempt is a sleep of
    [1 / GET_LIMIT] and one request [r]. *)
Variable r : request.
Hypothesis f_trace :
  forall w, trace (snd (f w)) = trace w ++ [Sleep (1 / GET_LIMIT); Call r].

Lemma attempts_trace (k : nat) :
  forall (i : nat) (w : world),
    exists (tr : list event) (c : nat),
      trace (snd (go k i f w)) = trace w ++ tr
      /\ throttled tr = true
      /\ calls tr = repeat r c
      /\ (1 <= c <= S k)%nat.
Proof.
  induction k as [|k IH]; intros i w; simpl;
    pose proof (f_trace w) as Hw;
    destruct (f w) as [[e|a] w1] eqn:Hf; simpl in Hw;
    try (exists [Sleep (1 / GET_LIMIT); Call r], 1%nat;
         destruct (retry_on e); simpl; repeat split; try assumption; lia);
    try (exists [Sleep (1 / GET_LIMIT); Call r], 1%nat;
         simpl; repeat split; try assumption; lia).
  destruct (retry_on e);
    [|exists [Sleep (1 / GET_LIMIT); Call r], 1%nat;
      simpl; repeat split; try assumption; lia].
  destruct (IH (S i) (snd (sleep (wait i) w1))) as (tr & c & Htr & Hth & Hc & Hn).
  exists ([Sleep (1 / GET_LIMIT); Call r] ++ Sleep (wait i) :: tr)%list, (S c).
  simpl in Htr. rewrite Htr, Hw.
  repeat split.
  - rewrite <- !app_assoc. reflexivity.
  - apply throttled_app; [reflexivity|].
    unfold throttled. cbn [throttled_after]. apply throttled_after_weaken, Hth.
  - simpl. rewrite Hc. reflexivity.
  - lia.
  - lia.
Qed.

End Attempts.

(** ** The client and the rate-limited calls *)

Lemma head_object_eq (Key : string) (w : world) :
  head_object Key w =
  (match hd (Serve []) (script w) with
   | Raise e => inl e
   | Serve _ => match bucket w !! Key with
                | Some _ => inr tt
                | None => inl (ClientError "404")
                end
   end, called (HeadObject Key) w).
Proof.
  unfold head_object, transport, called.
  destruct (hd (Serve []) (script w)); [|reflexivity].
  destruct (bucket w !! Key); reflexivity.
Qed.

Lemma get_attempt_eq (Key : string) (w : world) :
  (sleep (1 / GET_LIMIT) ;; get_object Key) w =
  (match hd (Serve []) (script w) with
   | Raise e => inl e
   | Serve rs =>
       match bucket w !! Key with
       | Some content =>
           inr {| ContentLength := Z.of_nat (List.length content);
                  Body := {| pending := content; reads := rs |} |}
       | None => inl (ClientError "NoSuchKey")
       end
   end, attempted (GetObject Key) w).
Proof.
  unfold mbind, M_bind, bind, sleep, emit, get_object, transport, attempted.
  cbn [bucket script trace log]. rewrite <- app_assoc. cbn [app].
  destruct (hd (Serve []) (script w)); [|reflexivity].
  destruct (bucket w !! Key); reflexivity.
Qed.

Lemma put_attempt_eq (Key : string) (body : list byte) (w : world) :
  (sleep (1 / GET_LIMIT) ;; put_object Key body) w =
  match hd (Serve []) (script w) with
  | Raise e => (inl e, attempted (PutObject Key body) w)
  | Serve _ =>
      (inr tt, {| bucket := <[Key := body]> (bucket w);
                  script := tl (script w);
                  trace := trace w ++ [Sleep (1 / GET_LIMIT);
                                       Call (PutObject Key body)];
                  log := log w |})
  end.
Proof.
  unfold mbind, M_bind, bind, sleep, emit, put_object, transport, attempted.
  cbn [bucket script trace log]. rewrite <- app_assoc. cbn [app].
  destruct (hd (Serve []) (script w)); reflexivity.
Qed.

Lemma same_store_trans (w1 w2 w3 : world) :
  same_store w1 w2 -> same_store w2 w3 -> same_store w1 w3.
Proof. unfold same_store. intros [-> ->] [-> ->]. split; reflexivity. Qed.

Lemma same_store_sleep (d : Q) (w : world) : same_store w (snd (sleep d w)).
Proof. split; reflexivity. Qed.

(** A [rate_limited_get] leaves the bucket and the log as they are, and
    the response it returns streams the object stored under the key. *)
Lemma rate_limited_get_store (object_key : string) (w : world) :
  match rate_limited_get object_key w with
  | (inl _, w') => same_store w w'
  | (inr resp, w') =>
      same_store w w' /\ bucket w !! object_key = Some (pending (Body resp))
  end.
Proof.
  unfold rate_limited_get, Tenacity.retry.
  apply (attempts_inv _ _ _ same_store
           (fun resp w w' => same_store w w'
              /\ bucket w !! object_key = Some (pending (Body resp)))).
  - apply same_store_trans.
  - apply same_store_sleep.
  - intros a w1 w2 w3 H12 [H23 Hl]. split; [eapply same_store_trans; eassumption|].
    destruct H12 as [<- _]. exact Hl.
  - intros w0 e w' H. rewrite get_attempt_eq in H. inversion H. split; reflexivity.
  - intros w0 a w' H. rewrite get_attempt_eq in H. inversion H as [[Ha Hw]].
    split; [split; reflexivity|].
    destruct (hd (Serve []) (script w0)); [|discriminate].
    destruct (bucket w0 !! object_key); [|discriminate].
    inversion Ha. reflexivity.
Qed.

(** A [rate_limited_put] that returns has stored the body under the key;
    one that raises has stored nothing. *)
Lemma rate_limited_put_store (object_key : string) (body : list byte) (w : world) :
  match rate_limited_put object_key body w with
  | (inl _, w') => same_store w w'
  | (inr _, w') =>
      bucket w' = <[object_key := body]> (bucket w) /\ log w' = log w
  end.
Proof.
  unfold rate_limited_put, Tenacity.retry.
  apply (attempts_inv _ _ _ same_store
           (fun _ w w' => bucket w' = <[object_key := body]> (bucket w)
                          /\ log w' = log w)).
  - apply same_store_trans.
  - apply same_store_sleep.
  - intros a w1 w2 w3 [Hb Hl] [-> ->]. rewrite Hb, Hl. split; reflexivity.
  - intros w0 e w' H. rewrite put_attempt_eq in H.
    destruct (hd (Serve []) (script w0)); inversion H. split; reflexivity.
  - intros w0 a w' H. rewrite put_attempt_eq in H.
    destruct (hd (Serve []) (script w0)); inversion H. split; reflexivity.
Qed.

Lemma rate_limited_get_trace (object_key : string) (w : world) :
  exists (tr : list event) (c : nat),
    trace (snd (rate_limited_get object_key w)) = trace w ++ tr
    /\ throttled tr = true
    /\ calls tr = repeat (GetObject object_key) c
    /\ (1 <= c <= 5)%nat.
Proof.
  unfold rate_limited_get, Tenacity.retry. apply attempts_trace.
  intros w0. rewrite get_attempt_eq. reflexivity.
Qed.

Lemma rate_limited_put_trace (object_key : string) (body : list byte) (w : world) :
  exists (tr : list event) (c : nat),
    trace (snd (rate_limited_put object_key body w)) = trace w ++ tr
    /\ throttled tr = true
    /\ calls tr = repeat (PutObject object_key body) c
    /\ (1 <= c <= 5)%nat.
Proof.
  unfold rate_limited_put, Tenacity.retry. apply attempts_trace.
  intros w0. rewrite put_attempt_eq.
  destruct (hd (Serve []) (script w0)); reflexivity.
Qed.

(** ** One task *)

Lemma process_file_body_eq (object_key : string) (w : world) :
  process_file_body object_key w =
  let md5_key := (object_key ++ ".md5")%string in
  let w1 := called (HeadObject md5_key) w in
  match fst (head_object md5_key w) with
  | inr _ => (inr tt, logged (Skipping object_key) w1)
  | inl (ClientError code) =>
      if String.eqb code "404" then upload_steps object_key w1
      else (inl (ClientError code), w1)
  | inl e => (inl e, w1)
  end.
Proof.
  unfold process_file_body, upload_steps, checksum_record.
  unfold mbind, M_bind, bind, try_except.
  rewrite head_object_eq. cbn [fst].
  destruct (hd (Serve []) (script w)) as [rs|e].
  - destruct (bucket w !! _); [reflexivity|].
    cbn. reflexivity.
  - destruct e as [code| |]; try reflexivity.
    cbn. destruct (String.eqb code "404"); reflexivity.
Qed.

Lemma upload_steps_eq (object_key : string) (w : world) :
  upload_steps object_key w =
  match rate_limited_get object_key w with
  | (inl e, w2) => (inl e, w2)
  | (inr resp, w2) =>
      match calc_hash_md5 (Body resp) (ContentLength resp) with
      | inl e => (inl e, w2)
      | inr md5_hash =>
          match rate_limited_put (object_key ++ ".md5")
                  (checksum_record md5_hash object_key) w2 with
          | (inl e, w3) => (inl e, w3)
          | (inr _, w3) =>
              (inr tt, logged (Uploaded object_key (object_key ++ ".md5")) w3)
          end
      end
  end.
Proof.
  unfold upload_steps, mbind, M_bind, bind, lift.
  destruct (rate_limited_get object_key w) as [[e|resp] w2]; [reflexivity|].
  destruct (calc_hash_md5 _ _) as [e|d]; [reflexivity|].
  destruct (rate_limited_put _ _ w2) as [[e|[]] w3]; reflexivity.
Qed.

Lemma process_file_eq (object_key : string) (w : world) :
  process_file object_key w =
  match process_file_body object_key w with
  | (inl e, w') => (inr tt, logged (Failed object_key e) w')
  | (inr _, w') => (inr tt, w')
  end.
Proof.
  unfold process_file, try_except.
  destruct (process_file_body object_key w) as [[e|[]] w']; reflexivity.
Qed.

Lemma log_app_inj (l : list log_record) (a b : log_record) :
  (l ++ [a] = l ++ [b])%list -> a = b.
Proof. intros H. apply app_inv_head in H. congruence. Qed.

(** What [process_file] does when nothing goes wrong: the record is missing,
    the object is there, the transport serves every request and the stream
    does not break. *)
Lemma process_file_uploads (object_key : string) (content : list byte) (w : world) :
  script w = [] ->
  bucket w !! (object_key ++ ".md5")%string = None ->
  bucket w !! object_key = Some content ->
  exists w',
    process_file object_key w = (inr tt, w')
    /\ log w' = log w ++ [Uploaded object_key (object_key ++ ".md5")]
    /\ bucket w' = <[(object_key ++ ".md5")%string :=
                       checksum_record (MD5.md5_reference content) object_key]>
                    (bucket w)
    /\ script w' = [].
Proof.
  intros Hs Hmd5 Hkey.
  rewrite process_file_eq, process_file_body_eq. cbv zeta.
  rewrite head_object_eq, Hs, Hmd5. cbn [hd fst String.eqb Ascii.eqb Bool.eqb].
  rewrite upload_steps_eq.
  set (w1 := called _ w).
  assert (Hget : rate_limited_get object_key w1 =
                 (inr {| ContentLength := Z.of_nat (List.length content);
                         Body := {| pending := content; reads := [] |} |},
                  attempted (GetObject object_key) w1)).
  { unfold rate_limited_get, Tenacity.retry. apply attempts_return.
    rewrite get_attempt_eq. unfold w1, called. cbn [script bucket].
    rewrite Hs, Hkey. reflexivity. }
  rewrite Hget. cbn [Body ContentLength].
  rewrite calc_hash_md5_intact by constructor. cbn [pending].
  set (w2 := attempted _ w1).
  set (body := checksum_record _ _).
  assert (Hput : rate_limited_put (object_key ++ ".md5") body w2 =
                 (inr tt, {| bucket := <[(object_key ++ ".md5")%string := body]> (bucket w2);
                             script := tl (script w2);
                             trace := trace w2 ++ [Sleep (1 / GET_LIMIT);
                                                   Call (PutObject (object_key ++ ".md5") body)];
                             log := log w2 |})).
  { unfold rate_limited_put, Tenacity.retry. apply attempts_return.
    rewrite put_attempt_eq. unfold w2, w1, attempted, called. cbn [script].
    rewrite Hs. reflexivity. }
  rewrite Hput. eexists. split; [reflexivity|].
  unfold logged, w2, w1, attempted, called. cbn [log bucket script].
  rewrite Hs. repeat split.
Qed.

(** ** The record of a task, its skip and its failures *)

(** C1. For every key processed successfully, the record written to the
    sibling key (the key with [".md5"] appended) has the body
    ["<hex-digest>  <key>\n"], where the digest is 32 lower-case hex
    characters and is the MD5 that the reference implementation computes
    over the whole content of the object; [calc_hash_md5] obtains it by
    reading the stream in pieces of at most 1 MiB until an empty read. *)
Theorem C1_checksum_record (object_key : string) (w : world) :
  let w' := snd (process_file object_key w) in
  log w' = log w ++ [Uploaded object_key (object_key ++ ".md5")] ->
  exists content : list byte,
    bucket w !! object_key = Some content
    /\ bucket w' !! (object_key ++ ".md5")%string =
       Some (bytes_of (MD5.md5_reference content ++ "  " ++ object_key
                       ++ String "010"%char EmptyString))
    /\ bucket w' = <[(object_key ++ ".md5")%string :=
                       checksum_record (MD5.md5_reference content) object_key]>
                    (bucket w)
    /\ String.length (MD5.md5_reference content) = 32%nat
    /\ Forall is_hex (list_ascii_of_string (MD5.md5_reference content)).
Proof.
  intros w'. subst w'.
  rewrite process_file_eq, process_file_body_eq. cbv zeta.
  set (w1 := called _ w).
  assert (H1 : same_store w w1) by (split; reflexivity).
  assert (Hfail : forall e w2,
             same_store w w2 ->
             log (logged (Failed object_key e) w2)
             = log w ++ [Uploaded object_key (object_key ++ ".md5")] -> False).
  { intros e w2 [_ Hl]. unfold logged. cbn [log]. rewrite Hl.
    intros H. apply log_app_inj in H. discriminate. }
  destruct (fst (head_object _ w)) as [[code| |]|[]];
    try (cbn [snd]; intros H; exfalso; eapply Hfail; eassumption).
  2:{ cbn [snd]. unfold logged, w1, called. cbn [log].
      intros H. apply log_app_inj in H. discriminate. }
  destruct (String.eqb code "404");
    [|cbn [snd]; intros H; exfalso; eapply Hfail; eassumption].
  rewrite upload_steps_eq.
  pose proof (rate_limited_get_store object_key w1) as Hget.
  destruct (rate_limited_get object_key w1) as [[e|resp] w2]; cbv beta iota in Hget.
  { cbn [snd]. intros H. exfalso. eapply Hfail; [|exact H].
    exact (same_store_trans _ _ _ H1 Hget). }
  destruct Hget as [H2 Hcontent].
  assert (H12 : same_store w w2) by exact (same_store_trans _ _ _ H1 H2).
  destruct (calc_hash_md5 _ _) as [e|d] eqn:Hhash.
  { cbn [snd]. intros H. exfalso. eapply Hfail; eassumption. }
  apply calc_hash_md5_inr in Hhash. subst d.
  pose proof (rate_limited_put_store (object_key ++ ".md5")
                (checksum_record (MD5.md5_reference (pending (Body resp))) object_key)
                w2) as Hput.
  destruct (rate_limited_put _ _ w2) as [[e|[]] w3]; cbv beta iota in Hput.
  { cbn [snd]. intros H. exfalso. eapply Hfail; [|exact H].
    exact (same_store_trans _ _ _ H12 Hput). }
  cbn [snd]. intros _. destruct Hput as [Hb _].
  destruct H12 as [Hb2 _]. destruct H1 as [Hb1 _].
  exists (pending (Body resp)).
  unfold logged. cbn [bucket]. rewrite Hb, Hb2.
  split; [rewrite <- Hb1; exact Hcontent|].
  split; [apply lookup_insert_eq|].
  split; [reflexivity|].
  split; [apply md5_reference_length|apply md5_reference_is_hex].
Qed.

Lemma C1_checksum_record_witness :
  log (snd (process_file "a.dat" (fresh one_object)))
  = log (fresh one_object) ++ [Uploaded "a.dat" "a.dat.md5"]
  /\ exists content : list byte,
       bucket (fresh one_object) !! "a.dat"%string = Some content
       /\ bucket (snd (process_file "a.dat" (fresh one_object))) !! "a.dat.md5"%string =
          Some (bytes_of (MD5.md5_reference content ++ "  " ++ "a.dat"
                          ++ String "010"%char EmptyString))
       /\ bucket (snd (process_file "a.dat" (fresh one_object)))
          = <["a.dat.md5"%string :=
                checksum_record (MD5.md5_reference content) "a.dat"]>
            (bucket (fresh one_object))
       /\ String.length (MD5.md5_reference content) = 32%nat
       /\ Forall is_hex (list_ascii_of_string (MD5.md5_reference content)).
Proof.
  split; [vm_compute; reflexivity|].
  apply (C1_checksum_record "a.dat" (fresh one_object)).
  vm_compute. reflexivity.
Defined.

(** C2. For every key whose checksum sibling already exists (the
    [head_object] on the key with [".md5"] appended succeeds),
    [process_file] returns after that one request, with no get and no put,
    and logs the key as skipped. *)
Theorem C2_existing_record_skipped (object_key : string) (w : world) :
  fst (head_object (object_key ++ ".md5") w) = inr tt ->
  process_file object_key w
  = (inr tt, logged (Skipping object_key)
                    (called (HeadObject (object_key ++ ".md5")) w))
  /\ calls (trace (called (HeadObject (object_key ++ ".md5")) w))
     = (calls (trace w) ++ [HeadObject (object_key ++ ".md5")])%list.
Proof.
  intros Hhead.
  rewrite process_file_eq, process_file_body_eq. cbv zeta.
  rewrite Hhead. split; [reflexivity|].
  unfold called. cbn [trace]. apply calls_app.
Qed.

Lemma C2_existing_record_skipped_witness :
  fst (head_object ("b.dat" ++ ".md5") (fresh scenario)) = inr tt
  /\ process_file "b.dat" (fresh scenario)
     = (inr tt, {| bucket := scenario; script := [];
                   trace := [Call (HeadObject "b.dat.md5")];
                   log := [Skipping "b.dat"] |}).
Proof.
  split; [vm_compute; reflexivity|].
  apply (C2_existing_record_skipped "b.dat" (fresh scenario)).
  vm_compute. reflexivity.
Defined.

(** C9. For every key, whatever is raised at any step of its processing
    (head, get, hash, put) is caught at the boundary of the task:
    [process_file] logs the failure with the key and returns normally, so
    that no exception reaches its caller. *)
Theorem C9_task_boundary (object_key : string) (w : world) :
  (exists w', process_file object_key w = (inr tt, w'))
  /\ (forall (e : exn) (w1 : world),
        process_file_body object_key w = (inl e, w1) ->
        process_file object_key w = (inr tt, logged (Failed object_key e) w1)).
Proof.
  rewrite process_file_eq.
  destruct (process_file_body object_key w) as [[e|[]] w1].
  - split; [eexists; reflexivity|].
    intros e' w1' H. inversion H. reflexivity.
  - split; [eexists; reflexivity|]. discriminate.
Qed.

Lemma C9_task_boundary_witness :
  fst (process_file_body "a.dat" broken_read) = inl (OtherException "ReadTimeoutError")
  /\ process_file "a.dat" broken_read
     = (inr tt, logged (Failed "a.dat" (OtherException "ReadTimeoutError"))
                       (snd (process_file_body "a.dat" broken_read))).
Proof.
  split; [vm_compute; reflexivity|].
  apply (proj2 (C9_task_boundary "a.dat" broken_read)).
  vm_compute. reflexivity.
Defined.

(** C10. The digest [calc_hash_md5] returns depends on nothing but the bytes
    the stream delivers: two streams with the same content give the same
    digest, however their reads cut the content and whatever [file_size] is
    passed; [file_size] only sets the total of the progress bar. *)
Theorem C10_digest_of_bytes_only (s1 s2 : StreamingBody) (size1 size2 : Z) :
  intact s1 -> intact s2 ->
  pending s1 = pending s2 ->
  calc_hash_md5 s1 size1 = calc_hash_md5 s2 size2
  /\ calc_hash_md5 s1 size1 = inr (MD5.md5_reference (pending s1))
  /\ hash_loop s1 MD5.md5 {| total := size1; n := 0 |}
     = inr (MD5.update MD5.md5 (pending s1),
            {| total := size1; n := Z.of_nat (List.length (pending s1)) |}).
Proof.
  intros H1 H2 Heq.
  rewrite (calc_hash_md5_intact s1 size1 H1), (calc_hash_md5_intact s2 size2 H2).
  split; [rewrite Heq; reflexivity|]. split; [reflexivity|].
  destruct (hash_loop_intact (S (List.length (pending s1))) s1 MD5.md5
              {| total := size1; n := 0 |} ltac:(lia) H1) as (m & bar & Hloop).
  rewrite Hloop.
  apply (hash_loop_inr (S (List.length (pending s1)))) in Hloop as [-> ->]; [|lia].
  reflexivity.
Qed.

Lemma C10_digest_of_bytes_only_witness :
  intact whole_stream /\ intact cut_stream
  /\ pending whole_stream = pending cut_stream
  /\ calc_hash_md5 whole_stream 11 = calc_hash_md5 cut_stream 0.
Proof.
  assert (H1 : intact whole_stream) by constructor.
  assert (H2 : intact cut_stream) by (repeat constructor).
  split; [exact H1|]. split; [exact H2|]. split; [reflexivity|].
  exact (proj1 (C10_digest_of_bytes_only whole_stream cut_stream 11 0 H1 H2 eq_refl)).
Defined.

(** ** The listing *)

Lemma length_append (a b : string) :
  String.length (a ++ b) = (String.length a + String.length b)%nat.
Proof. induction a as [|c a IH]; simpl; [reflexivity|]. rewrite IH. reflexivity. Qed.

Lemma substring_all (s : string) : substring 0 (String.length s) s = s.
Proof. induction s as [|c s IH]; simpl; [reflexivity|]. rewrite IH. reflexivity. Qed.

Lemma substring_skip (p s : string) (k : nat) :
  substring (String.length p) k (p ++ s) = substring 0 k s.
Proof. induction p as [|c p IH]; simpl; [reflexivity|exact IH]. Qed.

Lemma endswith_append (stem suffix : string) :
  endswith (stem ++ suffix) suffix = true.
Proof.
  unfold endswith. rewrite length_append.
  replace (String.length stem + String.length suffix - String.length suffix)%nat
    with (String.length stem) by lia.
  rewrite substring_skip, substring_all, String.eqb_refl, andb_true_r.
  apply Nat.leb_le. lia.
Qed.

Lemma endswith_any_append (stem ext : string) (exts : list string) :
  In ext exts -> endswith_any (stem ++ ext) exts = true.
Proof.
  intros Hin. unfold endswith_any. apply existsb_exists.
  exists ext. split; [exact Hin|apply endswith_append].
Qed.

Section Listing.
Context `{L : StrLower}.

Lemma list_pages_eq (Prefix : string) (Contents : list string)
    (later : list (list string)) (w : world) :
  list_pages Prefix (Contents :: later) w =
  match hd (Serve []) (script w) with
  | Raise e => (inl e, called (ListObjectsV2 Prefix) w)
  | Serve _ =>
      match list_pages Prefix later
              (snd (sleep (1 / GET_LIMIT) (called (ListObjectsV2 Prefix) w))) with
      | (inl e, w2) => (inl e, w2)
      | (inr rest, w2) => (inr (List.filter kept_key Contents ++ rest)%list, w2)
      end
  end.
Proof.
  cbn [list_pages]. unfold mbind, M_bind, bind, transport, called.
  destruct (hd (Serve []) (script w)); [|reflexivity].
  cbn [sleep emit snd].
  destruct (list_pages Prefix later _) as [[e|rest] w2]; reflexivity.
Qed.

(** Every key the loop yields has passed the test. *)
Lemma list_pages_kept (Prefix : string) (pages : list (list string)) :
  forall (w w' : world) (keys : list string),
    list_pages Prefix pages w = (inr keys, w') ->
    Forall (fun Key => kept_key Key = true) keys.
Proof.
  induction pages as [|Contents later IH]; intros w w' keys H.
  - inversion H. constructor.
  - rewrite list_pages_eq in H.
    destruct (hd (Serve []) (script w)); [|discriminate].
    destruct (list_pages Prefix later _) as [[e|rest] w2] eqn:Hlater; [discriminate|].
    inversion H; subst. apply List.Forall_app. split.
    + apply List.Forall_forall. intros Key HKey. apply filter_In in HKey. tauto.
    + eapply IH, Hlater.
Qed.

Lemma concat_paginate_from (keys : list string) :
  forall (room : nat) (page : list string),
    concat (paginate_from room page keys) = (rev page ++ keys)%list.
Proof.
  induction keys as [|k keys IH]; intros room page.
  - simpl. reflexivity.
  - destruct room as [|room]; cbn [paginate_from].
    + cbn [concat]. rewrite IH. reflexivity.
    + rewrite IH. cbn [rev]. rewrite <- app_assoc. reflexivity.
Qed.

(** With a transport that serves, the loop yields the keys of all the
    pages that pass the test, in order. *)
Lemma list_pages_serves (Prefix : string) (pages : list (list string)) :
  forall w : world,
    script w = [] ->
    exists w', list_pages Prefix pages w = (inr (List.filter kept_key (concat pages)), w')
               /\ script w' = [] /\ same_store w w'.
Proof.
  induction pages as [|Contents later IH]; intros w Hs.
  - exists w. split; [reflexivity|]. split; [exact Hs|split; reflexivity].
  - rewrite list_pages_eq, Hs. cbn [hd].
    destruct (IH (snd (sleep (1 / GET_LIMIT) (called (ListObjectsV2 Prefix) w))))
      as (w' & Hrun & Hs' & Hsame).
    { cbn. rewrite Hs. reflexivity. }
    rewrite Hrun. exists w'. split; [|split; [exact Hs'|exact Hsame]].
    cbn [concat]. rewrite List.filter_app. reflexivity.
Qed.

Lemma list_files_serves (Prefix : string) (w : world) :
  script w = [] ->
  exists w', list_files Prefix w
             = (inr (List.filter kept_key (listing Prefix (bucket w))), w')
             /\ script w' = [] /\ same_store w w'.
Proof.
  intros Hs. unfold list_files, paginate, mbind, M_bind, bind.
  destruct (list_pages_serves Prefix
              (paginate_from MaxKeys [] (listing Prefix (bucket w))) w Hs)
    as (w' & Hrun & Hs' & Hsame).
  rewrite Hrun, concat_paginate_from. exists w'.
  split; [reflexivity|]. split; assumption.
Qed.

(** C8. A key whose lower-case form ends with one of the extensions of
    [SKIP_EXTENSIONS] ([".pfk"], [".pek"], [".cfa"], [".mpegindex"]) is
    never yielded by [list_files], whatever the case of its letters.  The
    lower-case form is that of [str.lower], whatever function it is, on the
    whole of Unicode. *)
Theorem C8_skip_extensions_never_listed
    (Prefix Key stem ext : string) (w w' : world) (keys : list string) :
  In ext SKIP_EXTENSIONS ->
  lower Key = (stem ++ ext)%string ->
  list_files Prefix w = (inr keys, w') ->
  ~ In Key keys.
Proof.
  intros Hext Hlower Hrun HIn.
  unfold list_files, paginate, mbind, M_bind, bind in Hrun.
  apply list_pages_kept in Hrun.
  rewrite List.Forall_forall in Hrun. specialize (Hrun Key HIn).
  unfold kept_key in Hrun. rewrite Hlower, endswith_any_append in Hrun by exact Hext.
  discriminate.
Qed.

End Listing.

Lemma C8_skip_extensions_never_listed_witness :
  (In ".mpegindex"%string SKIP_EXTENSIONS
   /\ lower "Index.MpegIndex" = ("index" ++ ".mpegindex")%string
   /\ fst (list_files "" (fresh mixed_case)) = inr ["a.dat"%string]
   /\ ~ In "Index.MpegIndex"%string ["a.dat"%string])
  /\ (In ".pfk"%string SKIP_EXTENSIONS
      /\ kelvin_lower ("clip.PF" ++ kelvin_sign) = ("clip" ++ ".pfk")%string
      /\ fst (@list_files kelvin_keys "" (fresh kelvin_case)) = inr ["a.dat"%string]
      /\ ~ In ("clip.PF" ++ kelvin_sign)%string ["a.dat"%string]).
Proof.
  assert (Hext : In ".mpegindex"%string SKIP_EXTENSIONS) by (simpl; tauto).
  assert (Hpfk : In ".pfk"%string SKIP_EXTENSIONS) by (simpl; tauto).
  split.
  - split; [exact Hext|]. split; [reflexivity|]. split; [vm_compute; reflexivity|].
    apply (C8_skip_extensions_never_listed (L := ascii_keys)
             "" "Index.MpegIndex" "index" ".mpegindex"
             (fresh mixed_case) (snd (list_files "" (fresh mixed_case)))
             ["a.dat"%string] Hext eq_refl).
    vm_compute. reflexivity.
  - split; [exact Hpfk|]. split; [reflexivity|]. split; [vm_compute; reflexivity|].
    apply (C8_skip_extensions_never_listed (L := kelvin_keys)
             "" ("clip.PF" ++ kelvin_sign) "clip" ".pfk"
             (fresh kelvin_case)
             (snd (@list_files kelvin_keys "" (fresh kelvin_case)))
             ["a.dat"%string] Hpfk eq_refl).
    vm_compute. reflexivity.
Defined.

(** ** The policy against a failing transport *)

Lemma after_failures_fields (r : request) (k : nat) :
  forall (i : nat) (w : world),
    bucket (after_failures r i k w) = bucket w
    /\ log (after_failures r i k w) = log w
    /\ script (after_failures r i k w) = skipn k (script w)
    /\ trace (after_failures r i k w) = trace w ++ failure_events r i k.
Proof.
  induction k as [|k IH]; intros i w; cbn [after_failures failure_events].
  - rewrite app_nil_r. repeat split; reflexivity.
  - destruct (IH (S i) (backed_off i (attempted r w))) as (Hb & Hl & Hs & Ht).
    rewrite Hb, Hl, Hs, Ht. unfold backed_off, attempted.
    cbn [bucket log script trace].
    repeat split.
    + destruct (script w); [rewrite skipn_nil|]; reflexivity.
    + rewrite <- !app_assoc. reflexivity.
Qed.

Lemma calls_failure_events (r : request) (k : nat) :
  forall i : nat, calls (failure_events r i k) = repeat r k.
Proof.
  induction k as [|k IH]; intros i; cbn [failure_events]; [reflexivity|].
  rewrite calls_app, IH. reflexivity.
Qed.

Section Policy.
Context {A : Type}.
Variable f : M A.
Variable r : request.

(** An attempt against a transport that raises is a sleep, the request and
    the exception. *)
Hypothesis f_raise :
  forall (w : world) (e : exn),
    hd (Serve []) (script w) = Raise e -> f w = (inl e, attempted r w).

Lemma policy_immediate (k i : nat) (w : world) (e : exn) :
  Tenacity.retry_if_ClientError e = false ->
  hd (Serve []) (script w) = Raise e ->
  immediate (policy k i f) r e w.
Proof.
  intros He Hw. unfold immediate, policy.
  apply attempts_raise; [apply f_raise, Hw|exact He].
Qed.

Lemma policy_again (k i : nat) (w : world) (code : string) :
  hd (Serve []) (script w) = Raise (ClientError code) ->
  policy (S k) i f w = policy k (S i) f (backed_off i (attempted r w)).
Proof.
  intros Hw. unfold policy.
  rewrite (attempts_again _ _ _ k i w (attempted r w) (ClientError code));
    [reflexivity|apply f_raise, Hw|reflexivity].
Qed.

Lemma policy_exhausted (i : nat) (w : world) (code : string) :
  hd (Serve []) (script w) = Raise (ClientError code) ->
  policy 0 i f w = (inl (RetryError (ClientError code)), attempted r w).
Proof.
  intros Hw. unfold policy.
  apply attempts_stop; [apply f_raise, Hw|reflexivity].
Qed.

(** As many retries as the script has [ClientError]s at its head, if the
    budget allows. *)
Lemma policy_failures (codes : list string) :
  forall (k i : nat) (w : world) (later : list behaviour),
    script w = failures codes ++ later ->
    policy (List.length codes + k) i f w
    = policy k (i + List.length codes) f (after_failures r i (List.length codes) w).
Proof.
  induction codes as [|code codes IH]; intros k i w later Hw.
  - cbn [List.length after_failures]. rewrite Nat.add_0_r. reflexivity.
  - cbn [List.length after_failures plus].
    rewrite (policy_again _ _ _ code) by (rewrite Hw; reflexivity).
    rewrite (IH k (S i) (backed_off i (attempted r w)) later).
    + f_equal. lia.
    + unfold backed_off, attempted. cbn [script]. rewrite Hw. reflexivity.
Qed.

End Policy.

Lemma get_attempt_raise (Key : string) (w : world) (e : exn) :
  hd (Serve []) (script w) = Raise e ->
  (sleep (1 / GET_LIMIT) ;; get_object Key) w = (inl e, attempted (GetObject Key) w).
Proof. intros H. rewrite get_attempt_eq, H. reflexivity. Qed.

Lemma put_attempt_raise (Key : string) (body : list byte) (w : world) (e : exn) :
  hd (Serve []) (script w) = Raise e ->
  (sleep (1 / GET_LIMIT) ;; put_object Key body) w
  = (inl e, attempted (PutObject Key body) w).
Proof. intros H. rewrite put_attempt_eq, H. reflexivity. Qed.

Lemma rate_limited_get_policy (object_key : string) :
  rate_limited_get object_key
  = policy 4 1 (sleep (1 / GET_LIMIT) ;; get_object object_key).
Proof. reflexivity. Qed.

Lemma rate_limited_put_policy (object_key : string) (body : list byte) :
  rate_limited_put object_key body
  = policy 4 1 (sleep (1 / GET_LIMIT) ;; put_object object_key body).
Proof. reflexivity. Qed.

Lemma five_attempts_calls (r : request) (w : world) :
  calls (trace (five_attempts r w)) = (calls (trace w) ++ repeat r 5)%list.
Proof.
  unfold five_attempts, attempted. cbn [trace].
  destruct (after_failures_fields r 4 1 w) as (_ & _ & _ & ->).
  rewrite !calls_app, calls_failure_events, <- app_assoc. reflexivity.
Qed.

(** C5, as the code has it.  An exception that is not a botocore
    [ClientError] reaches the caller of [rate_limited_get] and
    [rate_limited_put] after the first attempt, with no retry and no sleep
    of the backoff.  A [ClientError], whatever its code (not found, access
    denied and malformed requests are [ClientError]s too), is followed by
    the first sleep of the backoff and a second attempt. *)
Theorem C5_only_other_exceptions_immediate
    (object_key : string) (body : list byte) (w : world) :
  (forall e : exn,
      Tenacity.retry_if_ClientError e = false ->
      hd (Serve []) (script w) = Raise e ->
      immediate (rate_limited_get object_key) (GetObject object_key) e w
      /\ immediate (rate_limited_put object_key body)
                   (PutObject object_key body) e w)
  /\ (forall code : string,
        hd (Serve []) (script w) = Raise (ClientError code) ->
        rate_limited_get object_key w
        = policy 3 2 (sleep (1 / GET_LIMIT) ;; get_object object_key)
                 (backed_off 1 (attempted (GetObject object_key) w))
        /\ rate_limited_put object_key body w
           = policy 3 2 (sleep (1 / GET_LIMIT) ;; put_object object_key body)
                    (backed_off 1 (attempted (PutObject object_key body) w))).
Proof.
  rewrite rate_limited_get_policy, rate_limited_put_policy. split.
  - intros e He Hw. split; apply policy_immediate; try assumption.
    + apply get_attempt_raise.
    + apply put_attempt_raise.
  - intros code Hw. split; eapply policy_again; try eassumption.
    + apply get_attempt_raise.
    + apply put_attempt_raise.
Qed.

Lemma C5_only_other_exceptions_immediate_witness :
  Tenacity.retry_if_ClientError (OtherException "EndpointConnectionError") = false
  /\ hd (Serve []) (script unreachable)
     = Raise (OtherException "EndpointConnectionError")
  /\ rate_limited_get "a.dat" unreachable
     = (inl (OtherException "EndpointConnectionError"),
        {| bucket := one_object; script := [];
           trace := [Sleep (1 / GET_LIMIT); Call (GetObject "a.dat")];
           log := [] |}).
Proof.
  split; [reflexivity|]. split; [reflexivity|].
  exact (proj1 (proj1 (C5_only_other_exceptions_immediate "a.dat" [] unreachable)
                      (OtherException "EndpointConnectionError")
                      eq_refl eq_refl)).
Defined.

(** C5 as stated fails: a not-found answer of the store is a [ClientError],
    and [rate_limited_get] tries five times, with the sleeps of the backoff
    in between, before anything reaches the caller. *)
Lemma C5_counterexample :
  fst (get_object "missing.dat" (fresh one_object)) = inl (ClientError "NoSuchKey")
  /\ ~ immediate (rate_limited_get "missing.dat") (GetObject "missing.dat")
                 (ClientError "NoSuchKey") (fresh one_object)
  /\ calls (trace (snd (rate_limited_get "missing.dat" (fresh one_object))))
     = repeat (GetObject "missing.dat") 5.
Proof.
  split; [vm_compute; reflexivity|]. split; [|vm_compute; reflexivity].
  unfold immediate. intros H.
  apply (f_equal fst) in H. vm_compute in H. discriminate.
Qed.

(** C7, as the code has it.  A rate-limited call whose first four attempts
    fail with a [ClientError] and whose fifth is served returns what the
    fifth attempt returns, after exactly five requests.  A call whose five
    attempts all fail with a [ClientError] makes exactly five requests and
    raises tenacity's [RetryError], which wraps the error of the fifth
    attempt. *)
Theorem C7_five_attempts
    (object_key : string) (body content : list byte)
    (c1 c2 c3 c4 c5 : string) (rs : list delivery) (later : list behaviour)
    (w : world) :
  (script w = failures [c1; c2; c3; c4] ++ Serve rs :: later ->
   (bucket w !! object_key = Some content ->
    rate_limited_get object_key w
    = (inr {| ContentLength := Z.of_nat (List.length content);
              Body := {| pending := content; reads := rs |} |},
       five_attempts (GetObject object_key) w))
   /\ rate_limited_put object_key body w
      = (inr tt, stored object_key body
                        (five_attempts (PutObject object_key body) w)))
  /\ (script w = failures [c1; c2; c3; c4; c5] ++ later ->
      rate_limited_get object_key w
      = (inl (RetryError (ClientError c5)), five_attempts (GetObject object_key) w)
      /\ rate_limited_put object_key body w
         = (inl (RetryError (ClientError c5)),
            five_attempts (PutObject object_key body) w))
  /\ calls (trace (five_attempts (GetObject object_key) w))
     = (calls (trace w) ++ repeat (GetObject object_key) 5)%list
  /\ calls (trace (five_attempts (PutObject object_key body) w))
     = (calls (trace w) ++ repeat (PutObject object_key body) 5)%list.
Proof.
  rewrite rate_limited_get_policy, rate_limited_put_policy.
  split; [|split; [|split; apply five_attempts_calls]].
  - intros Hw.
    pose proof (fun r => after_failures_fields r 4 1 w) as Hafter.
    split; [intros Hcontent|].
    + pose proof (policy_failures _ (GetObject object_key)
                 (get_attempt_raise object_key) [c1; c2; c3; c4] 0 1 w _ Hw) as Hrun.
      cbn [List.length plus] in Hrun. rewrite Hrun.
      destruct (Hafter (GetObject object_key)) as (Hb & _ & Hs & _).
      unfold policy. apply attempts_return.
      rewrite get_attempt_eq, Hs, Hb, Hw, Hcontent. reflexivity.
    + pose proof (policy_failures _ (PutObject object_key body)
                 (put_attempt_raise object_key body) [c1; c2; c3; c4] 0 1 w _ Hw) as Hrun.
      cbn [List.length plus] in Hrun. rewrite Hrun.
      destruct (Hafter (PutObject object_key body)) as (_ & _ & Hs & _).
      assert (Hhd : hd (Serve []) (script (after_failures
                       (PutObject object_key body) 1 4 w)) = Serve rs)
        by (rewrite Hs, Hw; reflexivity).
      unfold policy. apply attempts_return.
      rewrite put_attempt_eq, Hhd. reflexivity.
  - intros Hw.
    assert (Hw4 : script w = failures [c1; c2; c3; c4]
                             ++ Raise (ClientError c5) :: later) by exact Hw.
    pose proof (fun r => after_failures_fields r 4 1 w) as Hafter.
    split.
    + pose proof (policy_failures _ (GetObject object_key)
                 (get_attempt_raise object_key) [c1; c2; c3; c4] 0 1 w _ Hw4) as Hrun.
      cbn [List.length plus] in Hrun. rewrite Hrun.
      destruct (Hafter (GetObject object_key)) as (_ & _ & Hs & _).
      apply policy_exhausted; [apply get_attempt_raise|].
      rewrite Hs, Hw. reflexivity.
    + pose proof (policy_failures _ (PutObject object_key body)
                 (put_attempt_raise object_key body) [c1; c2; c3; c4] 0 1 w _ Hw4) as Hrun.
      cbn [List.length plus] in Hrun. rewrite Hrun.
      destruct (Hafter (PutObject object_key body)) as (_ & _ & Hs & _).
      apply policy_exhausted; [apply put_attempt_raise|].
      rewrite Hs, Hw. reflexivity.
Qed.

Lemma C7_five_attempts_witness :
  (script five_failures
   = failures ["SlowDown"; "SlowDown"; "SlowDown"; "SlowDown"; "RequestTimeout"]%string
     ++ []
   /\ rate_limited_get "a.dat" five_failures
      = (inl (RetryError (ClientError "RequestTimeout")),
         five_attempts (GetObject "a.dat") five_failures))
  /\ (script four_failures
      = failures ["SlowDown"; "SlowDown"; "SlowDown"; "RequestTimeout"]%string
        ++ Serve [] :: []
      /\ bucket four_failures !! "a.dat"%string = Some (bytes_of "hello world")
      /\ rate_limited_get "a.dat" four_failures
         = (inr {| ContentLength := 11;
                   Body := {| pending := bytes_of "hello world"; reads := [] |} |},
            five_attempts (GetObject "a.dat") four_failures)).
Proof.
  split.
  - split; [reflexivity|].
    exact (proj1 (proj1 (proj2
             (C7_five_attempts "a.dat" [] [] "SlowDown" "SlowDown" "SlowDown"
                "SlowDown" "RequestTimeout" [] [] five_failures)) eq_refl)).
  - split; [reflexivity|]. split; [vm_compute; reflexivity|].
    exact (proj1 (proj1
             (C7_five_attempts "a.dat" [] (bytes_of "hello world")
                "SlowDown" "SlowDown" "SlowDown" "RequestTimeout" "" [] []
                four_failures) eq_refl)
             ltac:(vm_compute; reflexivity)).
Defined.

(** C7 as stated fails in its last part: what reaches the caller after five
    failed attempts is not the last error but a [RetryError] around it. *)
Lemma C7_counterexample :
  fst (rate_limited_get "a.dat" five_failures)
  <> inl (ClientError "RequestTimeout")
  /\ fst (rate_limited_get "a.dat" five_failures)
     = inl (RetryError (ClientError "RequestTimeout"))
  /\ calls (trace (snd (rate_limited_get "a.dat" five_failures)))
     = repeat (GetObject "a.dat") 5.
Proof.
  split; [vm_compute; discriminate|]. split; vm_compute; reflexivity.
Qed.

(** ** Which requests are throttled *)

Lemma Forall_repeat {A : Type} (P : A -> Prop) (x : A) (k : nat) :
  P x -> Forall P (repeat x k).
Proof. intros H. induction k; simpl; constructor; assumption. Qed.

Lemma upload_steps_trace (object_key : string) (w : world) :
  exists tr : list event,
    trace (snd (upload_steps object_key w)) = trace w ++ tr
    /\ throttled tr = true
    /\ Forall is_transfer (calls tr)
    /\ (List.length (calls tr) <= 10)%nat.
Proof.
  rewrite upload_steps_eq.
  destruct (rate_limited_get_trace object_key w) as (tr1 & c1 & Ht1 & Hth1 & Hc1 & Hn1).
  assert (Hf1 : Forall is_transfer (calls tr1)).
  { rewrite Hc1. apply Forall_repeat. exact I. }
  assert (Hl1 : (List.length (calls tr1) <= 5)%nat).
  { rewrite Hc1, repeat_length. lia. }
  destruct (rate_limited_get object_key w) as [[e|resp] w2]; cbn [snd] in Ht1.
  { exists tr1. cbn [snd]. repeat split; try assumption. lia. }
  destruct (calc_hash_md5 _ _) as [e|d].
  { exists tr1. cbn [snd]. repeat split; try assumption. lia. }
  destruct (rate_limited_put_trace (object_key ++ ".md5")
              (checksum_record d object_key) w2)
    as (tr2 & c2 & Ht2 & Hth2 & Hc2 & Hn2).
  assert (Hf2 : Forall is_transfer (calls tr2)).
  { rewrite Hc2. apply Forall_repeat. exact I. }
  assert (Hl2 : (List.length (calls tr2) <= 5)%nat).
  { rewrite Hc2, repeat_length. lia. }
  exists (tr1 ++ tr2)%list.
  assert (Hall : trace (snd (rate_limited_put (object_key ++ ".md5")
                               (checksum_record d object_key) w2))
                 = trace w ++ tr1 ++ tr2).
  { rewrite Ht2, Ht1, <- app_assoc. reflexivity. }
  rewrite calls_app, length_app.
  destruct (rate_limited_put _ _ w2) as [[e|[]] w3]; cbn [snd] in *;
    (split; [exact Hall|]; split; [apply throttled_app; assumption|];
     split; [apply List.Forall_app; split; assumption|lia]).
Qed.

(** C4, as the code has it by design.  Every attempt of a get or a put
    comes right after a sleep of [1 / GET_LIMIT] seconds, and there are
    between one and five of them, as the retry policy decides.  The
    existence check is not under the retry policy: [process_file] sends its
    head request exactly once, whatever the answer, before any get or put;
    every request that follows it in the task is a throttled get or put. *)
Theorem C4_get_and_put_throttled_head_once
    (object_key : string) (body : list byte) (w : world) :
  (exists (tr : list event) (c : nat),
      trace (snd (rate_limited_get object_key w)) = trace w ++ tr
      /\ throttled tr = true
      /\ calls tr = repeat (GetObject object_key) c
      /\ (1 <= c <= 5)%nat)
  /\ (exists (tr : list event) (c : nat),
        trace (snd (rate_limited_put object_key body w)) = trace w ++ tr
        /\ throttled tr = true
        /\ calls tr = repeat (PutObject object_key body) c
        /\ (1 <= c <= 5)%nat)
  /\ (exists check tr : list event,
        trace (snd (process_file object_key w)) = trace w ++ check ++ tr
        /\ calls check = [HeadObject (object_key ++ ".md5")]
        /\ throttled tr = true
        /\ Forall is_transfer (calls tr)).
Proof.
  split; [apply rate_limited_get_trace|].
  split; [apply rate_limited_put_trace|].
  exists [Call (HeadObject (object_key ++ ".md5"))].
  rewrite process_file_eq, process_file_body_eq. cbv zeta.
  set (w1 := called _ w).
  destruct (fst (head_object _ w)) as [[code| |]|[]].
  - destruct (String.eqb code "404");
      [|exists []; cbn [snd logged trace]; repeat split; constructor].
    destruct (upload_steps_trace object_key w1) as (tr & Ht & Hth & Hf & _).
    exists tr.
    assert (Htr : trace (snd (upload_steps object_key w1))
                  = trace w ++ [Call (HeadObject (object_key ++ ".md5"))] ++ tr).
    { rewrite Ht. unfold w1, called. cbn [trace].
      rewrite <- app_assoc. reflexivity. }
    destruct (upload_steps object_key w1) as [[e|[]] w2]; cbn [snd] in *;
      (split; [exact Htr|split; [reflexivity|split; assumption]]).
  - exists []. cbn [snd logged trace]. repeat split; constructor.
  - exists []. cbn [snd logged trace]. repeat split; constructor.
  - exists []. cbn [snd logged trace]. repeat split; constructor.
Qed.

(** C4 as stated fails for the head request: it does not go through the
    wrapper of get and put, so that an error a get retries ends the task at
    the first head, and the trace of a skipped task is that one request. *)
Lemma C4_counterexample :
  trace (snd (process_file "b.dat" (fresh scenario)))
  = [Call (HeadObject "b.dat.md5")]
  /\ throttled (trace (snd (process_file "b.dat" (fresh scenario)))) = false
  /\ trace (snd (process_file "a.dat" slow_down)) = [Call (HeadObject "a.dat.md5")]
  /\ log (snd (process_file "a.dat" slow_down))
     = [Failed "a.dat" (ClientError "SlowDown")]
  /\ calls (trace (snd (rate_limited_get "a.dat" slow_down)))
     = [GetObject "a.dat"; GetObject "a.dat"].
Proof. repeat split; vm_compute; reflexivity. Qed.

(** ** Time *)

(** Within one thread the sleeps do space the requests: in a throttled
    trace two requests in a row are at least [1 / GET_LIMIT] apart. *)
Lemma throttled_spaced (tr : list event) :
  forall (slept : bool) (t prev : Q),
    Forall sleep_nonneg tr ->
    throttled_after slept tr = true ->
    (prev <= t)%Q ->
    (slept = true -> (prev + 1 / GET_LIMIT <= t)%Q) ->
    spaced (1 / GET_LIMIT) prev (map fst (call_times t tr)).
Proof.
  induction tr as [|[d|r] tr IH]; intros slept t prev Hpos Hth Hle Hgap;
    cbn [call_times map spaced throttled_after] in *.
  - exact I.
  - inversion Hpos as [|x l Hd Hrest]; subst. cbn [sleep_nonneg] in Hd.
    apply (IH (Qeq_bool d (1 / GET_LIMIT)) (t + d)%Q prev Hrest Hth).
    + apply Qle_trans with t; [exact Hle|].
      rewrite <- (Qplus_0_r t) at 1. apply Qplus_le_r. exact Hd.
    + intros Heq. apply Qeq_bool_iff in Heq. rewrite Heq.
      apply Qplus_le_l. exact Hle.
  - apply andb_true_iff in Hth as [-> Hth]. cbn [fst]. split; [apply Hgap; reflexivity|].
    inversion Hpos; subst.
    apply (IH false t t); [assumption|exact Hth|apply Qle_refl|discriminate].
Qed.

(** C3.  A second run over the bucket a first run has left is not all
    skips: the first run has stored [a.dat.md5], [".md5"] is not one of
    [SKIP_EXTENSIONS], and so the second run lists the record as an object
    of its own, finds no [a.dat.md5.md5] and puts one. *)
Theorem C3_second_run_puts_again :
  let first := snd (main "" (fresh one_object)) in
  let second := snd (main "" (fresh (bucket first))) in
  log first = [Uploaded "a.dat" "a.dat.md5"]
  /\ log second = [Uploaded "a.dat.md5" "a.dat.md5.md5"; Skipping "a.dat"]
  /\ In (PutObject "a.dat.md5.md5"
           (checksum_record
              (MD5.md5_reference
                 (checksum_record (MD5.md5_reference (bytes_of "hello world"))
                                  "a.dat"))
              "a.dat.md5"))
        (calls (trace second)).
Proof.
  intros first second. split; [vm_compute; reflexivity|].
  split; [vm_compute; reflexivity|].
  vm_compute. repeat (first [left; reflexivity | right]).
Qed.

(** C6.  Two workers of the pool that take their tasks at the same instant
    each sleep [1 / GET_LIMIT] on their own and then send their get at the
    same instant: the two requests are no time apart. *)
Theorem C6_two_workers_same_instant :
  let a := call_times 0 (trace (snd (process_file "a.dat" (fresh two_objects)))) in
  let b := call_times 0 (trace (snd (process_file "b.dat" (fresh two_objects)))) in
  In ((1 # 16)%Q, GetObject "a.dat") a
  /\ In ((1 # 16)%Q, GetObject "b.dat") b
  /\ ~ spaced (1 / GET_LIMIT) (1 # 16) [(1 # 16)%Q].
Proof.
  intros a b. split; [|split].
  - vm_compute. right. left. reflexivity.
  - vm_compute. right. left. reflexivity.
  - intros [H _]. vm_compute in H. apply H. reflexivity.
Qed.

Example md5_empty : MD5.md5_reference [] = "d41d8cd98f00b204e9800998ecf8427e"%string.
Proof. vm_compute. reflexivity. Qed.

Example md5_abc : MD5.md5_reference (bytes_of "abc") = "900150983cd24fb0d6963f7d28e17f72"%string.
Proof. vm_compute. reflexivity. Qed.

Example md5_70 : MD5.md5_reference (repeat "a"%byte 70) = "0f5c6c4e740bfcc08c3c26ccb2673d46"%string.
Proof. vm_compute. reflexivity. Qed.

(** ** Scenarios *)

(** The waits of the backoff after attempts 1 to 6. *)
Example backoff_waits :
  map (Tenacity.wait_exponential 1 1 16) [1; 2; 3; 4; 5; 6]%nat
  = [1; 2; 4; 8; 16; 16]%Q.
Proof. vm_compute. reflexivity. Qed.

(** A get of a key the store does not have: five attempts, the sleeps of
    the backoff between them. *)
Example get_missing_trace :
  trace (snd (rate_limited_get "missing.dat" (fresh one_object)))
  = [Sleep (1 # 16); Call (GetObject "missing.dat"); Sleep 1;
     Sleep (1 # 16); Call (GetObject "missing.dat"); Sleep 2;
     Sleep (1 # 16); Call (GetObject "missing.dat"); Sleep 4;
     Sleep (1 # 16); Call (GetObject "missing.dat"); Sleep 8;
     Sleep (1 # 16); Call (GetObject "missing.dat")].
Proof. vm_compute. reflexivity. Qed.

(** The bucket of the specification: [a.dat] without a record, [b.dat] with
    one, and an index file.  [b.dat] is skipped, [a.dat] gets its record,
    the index file is not listed; the record of [b.dat], listed as an
    object like any other, gets a record too. *)
Example scenario_run :
  fst (list_files "" (fresh scenario)) = inr ["a.dat"; "b.dat.md5"; "b.dat"]%string
  /\ log (snd (main "" (fresh scenario)))
     = [Uploaded "a.dat" "a.dat.md5"; Uploaded "b.dat.md5" "b.dat.md5.md5";
        Skipping "b.dat"]
  /\ bucket (snd (main "" (fresh scenario))) !! "a.dat.md5"%string
     = Some (bytes_of ("5eb63bbbe01eeed093cb22bb8f5acdc3  a.dat"
                       ++ String "010"%char EmptyString)).
Proof. repeat split; vm_compute; reflexivity. Qed.

(** A failure at each step of a task ends in the log, not at the caller. *)
Example failure_at_head :
  process_file "a.dat" slow_down
  = (inr tt, {| bucket := one_object; script := [];
                trace := [Call (HeadObject "a.dat.md5")];
                log := [Failed "a.dat" (ClientError "SlowDown")] |}).
Proof. vm_compute. reflexivity. Qed.

Example failure_at_get :
  log (snd (process_file "missing.dat" (fresh one_object)))
  = [Failed "missing.dat" (RetryError (ClientError "NoSuchKey"))].
Proof. vm_compute. reflexivity. Qed.

Example failure_at_hash :
  log (snd (process_file "a.dat" broken_read))
  = [Failed "a.dat" (OtherException "ReadTimeoutError")].
Proof. vm_compute. reflexivity. Qed.

Example failure_at_put :
  log (snd (process_file "a.dat" broken_put))
  = [Failed "a.dat" (OtherException "ConnectionClosedError")]
  /\ bucket (snd (process_file "a.dat" broken_put)) = one_object.
Proof. split; vm_compute; reflexivity. Qed.

(** ** The shape of a rate-limited call *)

Section Shape.
Context {A : Type}.
Variable f : M A.
Variable r : request.

Hypothesis f_trace :
  forall w, trace (snd (f w)) = trace w ++ [Sleep (1 / GET_LIMIT); Call r].

(** The events of a call under the policy: some failed attempts, each with
    the sleep of the backoff after it, and a last attempt. *)
Lemma policy_shape (k : nat) :
  forall (i : nat) (w : world),
    exists j : nat,
      (j <= k)%nat
      /\ trace (snd (policy k i f w))
         = trace w ++ failure_events r i j ++ [Sleep (1 / GET_LIMIT); Call r].
Proof.
  induction k as [|k IH]; intros i w; pose proof (f_trace w) as Hw;
    destruct (f w) as [[e|a] w1] eqn:Hf; cbn [snd] in Hw.
  - exists 0%nat. split; [lia|]. unfold policy.
    destruct (Tenacity.retry_if_ClientError e) eqn:He.
    + rewrite (attempts_stop _ _ _ _ _ _ _ Hf He). exact Hw.
    + rewrite (attempts_raise _ _ _ _ _ _ _ _ Hf He). exact Hw.
  - exists 0%nat. split; [lia|]. unfold policy.
    rewrite (attempts_return _ _ _ _ _ _ _ _ Hf). exact Hw.
  - unfold policy. destruct (Tenacity.retry_if_ClientError e) eqn:He.
    + rewrite (attempts_again _ _ _ _ _ _ _ _ Hf He).
      destruct (IH (S i) (snd (sleep (Tenacity.wait_exponential 1 1 16 i) w1)))
        as (j & Hj & Htr).
      exists (S j). split; [lia|].
      unfold policy in Htr. rewrite Htr. cbn [sleep emit snd trace].
      rewrite Hw. cbn [failure_events]. rewrite <- !app_assoc. reflexivity.
    + exists 0%nat. split; [lia|].
      rewrite (attempts_raise _ _ _ _ _ _ _ _ Hf He). exact Hw.
  - exists 0%nat. split; [lia|]. unfold policy.
    rewrite (attempts_return _ _ _ _ _ _ _ _ Hf). exact Hw.
Qed.

End Shape.

Lemma slept_app (a b : list event) : (slept (a ++ b) == slept a + slept b)%Q.
Proof.
  induction a as [|[d|r] a IH]; cbn [app slept].
  - rewrite Qplus_0_l. reflexivity.
  - rewrite IH, Qplus_assoc. reflexivity.
  - exact IH.
Qed.

Lemma wait_exponential_nonneg (multiplier min max : Q) (attempt_number : nat) :
  (0 <= Tenacity.wait_exponential multiplier min max attempt_number)%Q.
Proof.
  unfold Tenacity.wait_exponential.
  eapply Qle_trans; [|apply Q.le_max_l].
  apply Q.le_max_l.
Qed.

Lemma failure_events_nonneg (r : request) (k : nat) :
  forall i : nat, Forall sleep_nonneg (failure_events r i k).
Proof.
  induction k as [|k IH]; intros i; cbn [failure_events app].
  - constructor.
  - constructor; [cbn; discriminate|].
    constructor; [exact I|].
    constructor; [apply wait_exponential_nonneg|apply IH].
Qed.

Lemma failure_events_throttled (r : request) (k : nat) :
  forall (i : nat) (later : list event),
    throttled later = true ->
    throttled (failure_events r i k ++ later) = true.
Proof.
  induction k as [|k IH]; intros i later Hlater; cbn [failure_events app].
  - exact Hlater.
  - unfold throttled. cbn [throttled_after].
    change (Qeq_bool (1 / GET_LIMIT) (1 / GET_LIMIT)) with true. cbn [andb].
    apply throttled_after_weaken. apply IH, Hlater.
Qed.

Lemma rate_limited_get_shape (object_key : string) (w : world) :
  exists j : nat,
    (j <= 4)%nat
    /\ trace (snd (rate_limited_get object_key w))
       = trace w ++ failure_events (GetObject object_key) 1 j
         ++ [Sleep (1 / GET_LIMIT); Call (GetObject object_key)].
Proof.
  rewrite rate_limited_get_policy. apply policy_shape.
  intros w0. rewrite get_attempt_eq. reflexivity.
Qed.

Lemma rate_limited_put_shape (object_key : string) (body : list byte) (w : world) :
  exists j : nat,
    (j <= 4)%nat
    /\ trace (snd (rate_limited_put object_key body w))
       = trace w ++ failure_events (PutObject object_key body) 1 j
         ++ [Sleep (1 / GET_LIMIT); Call (PutObject object_key body)].
Proof.
  rewrite rate_limited_put_policy. apply policy_shape.
  intros w0. rewrite put_attempt_eq.
  destruct (hd (Serve []) (script w0)); reflexivity.
Qed.

Lemma bounded_sleep (r : request) (j : nat) :
  (j <= 4)%nat ->
  (slept (failure_events r 1 j ++ [Sleep (1 / GET_LIMIT); Call r])
   <= 15 + 5 / GET_LIMIT)%Q.
Proof.
  intros Hj.
  destruct j as [|[|[|[|[|j]]]]]; try lia;
    apply Qle_bool_imp_le; vm_compute; reflexivity.
Qed.

(** X8. A [rate_limited_get] or [rate_limited_put] is at most four failed
    attempts, each a sleep of [1 / GET_LIMIT], the request and the sleep of
    the backoff (1, 2, 4 and 8 seconds), followed by a last attempt; it
    keeps its thread asleep for at most 15 seconds of backoff and five
    sleeps of [1 / GET_LIMIT]. *)
Theorem X8_rate_limited_call_shape
    (object_key : string) (body : list byte) (w : world) :
  (exists j : nat,
      (j <= 4)%nat
      /\ trace (snd (rate_limited_get object_key w))
         = trace w ++ failure_events (GetObject object_key) 1 j
           ++ [Sleep (1 / GET_LIMIT); Call (GetObject object_key)]
      /\ (slept (failure_events (GetObject object_key) 1 j
                 ++ [Sleep (1 / GET_LIMIT); Call (GetObject object_key)])
          <= 15 + 5 / GET_LIMIT)%Q)
  /\ (exists j : nat,
        (j <= 4)%nat
        /\ trace (snd (rate_limited_put object_key body w))
           = trace w ++ failure_events (PutObject object_key body) 1 j
             ++ [Sleep (1 / GET_LIMIT); Call (PutObject object_key body)]
        /\ (slept (failure_events (PutObject object_key body) 1 j
                   ++ [Sleep (1 / GET_LIMIT); Call (PutObject object_key body)])
            <= 15 + 5 / GET_LIMIT)%Q)
  /\ map (Tenacity.wait_exponential 1 1 16) [1; 2; 3; 4]%nat = [1; 2; 4; 8]%Q.
Proof.
  split; [|split; [|vm_compute; reflexivity]].
  - destruct (rate_limited_get_shape object_key w) as (j & Hj & Htr).
    exists j. split; [exact Hj|]. split; [exact Htr|apply bounded_sleep, Hj].
  - destruct (rate_limited_put_shape object_key body w) as (j & Hj & Htr).
    exists j. split; [exact Hj|]. split; [exact Htr|apply bounded_sleep, Hj].
Qed.

Lemma shape_spaced (r : request) (j i : nat) (t : Q) :
  spaced (1 / GET_LIMIT) t
    (map fst (call_times t (failure_events r i j
                            ++ [Sleep (1 / GET_LIMIT); Call r]))).
Proof.
  apply (throttled_spaced _ false t t).
  - apply List.Forall_app. split; [apply failure_events_nonneg|].
    constructor; [cbn; discriminate|]. constructor; [exact I|constructor].
  - apply failure_events_throttled. reflexivity.
  - apply Qle_refl.
  - discriminate.
Qed.

(** X9. Within the thread that makes it, a [rate_limited_get] or
    [rate_limited_put] that starts at instant [t] sends its first request
    no earlier than [t + 1 / GET_LIMIT], and any two of its requests in a
    row are at least [1 / GET_LIMIT] seconds apart. *)
Theorem X9_one_thread_is_spaced
    (object_key : string) (body : list byte) (w : world) (t : Q) :
  (exists tr : list event,
      trace (snd (rate_limited_get object_key w)) = trace w ++ tr
      /\ spaced (1 / GET_LIMIT) t (map fst (call_times t tr)))
  /\ (exists tr : list event,
        trace (snd (rate_limited_put object_key body w)) = trace w ++ tr
        /\ spaced (1 / GET_LIMIT) t (map fst (call_times t tr))).
Proof.
  split.
  - destruct (rate_limited_get_shape object_key w) as (j & _ & Htr).
    eexists. split; [exact Htr|apply shape_spaced].
  - destruct (rate_limited_put_shape object_key body w) as (j & _ & Htr).
    eexists. split; [exact Htr|apply shape_spaced].
Qed.

(** ** What a task can leave behind *)

Lemma hash_loop_inl (k : nat) :
  forall (s : StreamingBody) (m : MD5.md5_object) (bar : tqdm) (e : exn),
    (List.length (pending s) < k)%nat ->
    hash_loop s m bar = inl e ->
    In (Broken e) (reads s).
Proof.
  induction k as [|k IH]; intros s m bar e Hk; [lia|].
  rewrite hash_loop_step.
  destruct (read MiB s) as [e'|[chunk rest]] eqn:Hread.
  - intros H. inversion H; subst. unfold read in Hread.
    destruct (reads s) as [|[j|e0] ds]; try discriminate.
    inversion Hread; subst. left. reflexivity.
  - apply read_inr in Hread as (Hsplit & _ & Hreads).
    destruct chunk as [|b chunk]; [discriminate|].
    intros H. apply IH in H.
    + rewrite Hreads in H. destruct (reads s); [contradiction|right; exact H].
    + rewrite Hsplit, length_app in Hk. cbn [List.length] in Hk. lia.
Qed.

(** X7. [calc_hash_md5] never returns the digest of a part of the content:
    it returns the reference MD5 of all the bytes of the stream, or it
    raises an exception that a read of the stream has raised. *)
Theorem X7_whole_digest_or_read_error (s : StreamingBody) (file_size : Z) :
  calc_hash_md5 s file_size = inr (MD5.md5_reference (pending s))
  \/ exists e : exn, In (Broken e) (reads s) /\ calc_hash_md5 s file_size = inl e.
Proof.
  destruct (calc_hash_md5 s file_size) as [e|d] eqn:Hcalc.
  - right. exists e. split; [|reflexivity].
    unfold calc_hash_md5 in Hcalc.
    destruct (hash_loop s MD5.md5 _) as [e'|[m bar]] eqn:Hloop; [|discriminate].
    inversion Hcalc; subst.
    apply (hash_loop_inl (S (List.length (pending s)))) in Hloop; [exact Hloop|lia].
  - left. apply calc_hash_md5_inr in Hcalc. rewrite Hcalc. reflexivity.
Qed.



(** X13. When the existence check fails with anything but a 404, the task
    stops there: it logs the failure and sends no get and no put, so that a
    record it could not see is never overwritten. *)
Theorem X13_failed_check_stops_the_task (object_key : string) (w : world) (e : exn) :
  hd (Serve []) (script w) = Raise e ->
  e <> ClientError "404" ->
  process_file object_key w
  = (inr tt, logged (Failed object_key e)
                    (called (HeadObject (object_key ++ ".md5")) w)).
Proof.
  intros Hw He.
  rewrite process_file_eq, process_file_body_eq. cbv zeta.
  rewrite head_object_eq, Hw. cbn [fst].
  destruct e as [code| |]; try reflexivity.
  destruct (String.eqb_spec code "404") as [->|Hne]; [contradiction|reflexivity].
Qed.

Lemma X13_failed_check_stops_the_task_witness :
  hd (Serve []) (script slow_down) = Raise (ClientError "SlowDown")
  /\ ClientError "SlowDown" <> ClientError "404"
  /\ process_file "a.dat" slow_down
     = (inr tt, logged (Failed "a.dat" (ClientError "SlowDown"))
                       (called (HeadObject "a.dat.md5") slow_down)).
Proof.
  assert (Hne : ClientError "SlowDown" <> ClientError "404") by discriminate.
  split; [reflexivity|]. split; [exact Hne|].
  exact (X13_failed_check_stops_the_task "a.dat" slow_down
           (ClientError "SlowDown") eq_refl Hne).
Defined.

(** ** Tasks against a transport that serves *)

Lemma process_file_three_requests
    (object_key : string) (content : list byte) (w : world) :
  script w = [] ->
  bucket w !! (object_key ++ ".md5")%string = None ->
  bucket w !! object_key = Some content ->
  process_file object_key w
  = (inr tt,
     {| bucket := <[(object_key ++ ".md5")%string :=
                      checksum_record (MD5.md5_reference content) object_key]>
                   (bucket w);
        script := [];
        trace := trace w
                 ++ [Call (HeadObject (object_key ++ ".md5"));
                     Sleep (1 / GET_LIMIT); Call (GetObject object_key);
                     Sleep (1 / GET_LIMIT);
                     Call (PutObject (object_key ++ ".md5")
                             (checksum_record (MD5.md5_reference content)
                                              object_key))];
        log := log w ++ [Uploaded object_key (object_key ++ ".md5")] |}).
Proof.
  intros Hs Hmd5 Hkey.
  rewrite process_file_eq, process_file_body_eq. cbv zeta.
  rewrite head_object_eq, Hs, Hmd5. cbn [hd fst String.eqb Ascii.eqb Bool.eqb].
  rewrite upload_steps_eq.
  set (w1 := called _ w).
  assert (Hget : rate_limited_get object_key w1 =
                 (inr {| ContentLength := Z.of_nat (List.length content);
                         Body := {| pending := content; reads := [] |} |},
                  attempted (GetObject object_key) w1)).
  { unfold rate_limited_get, Tenacity.retry. apply attempts_return.
    rewrite get_attempt_eq. unfold w1, called. cbn [script bucket].
    rewrite Hs, Hkey. reflexivity. }
  rewrite Hget. cbn [Body ContentLength].
  rewrite calc_hash_md5_intact by constructor. cbn [pending].
  set (w2 := attempted _ w1).
  set (body := checksum_record _ _).
  assert (Hput : rate_limited_put (object_key ++ ".md5") body w2 =
                 (inr tt, {| bucket := <[(object_key ++ ".md5")%string := body]> (bucket w2);
                             script := tl (script w2);
                             trace := trace w2 ++ [Sleep (1 / GET_LIMIT);
                                                   Call (PutObject (object_key ++ ".md5") body)];
                             log := log w2 |})).
  { unfold rate_limited_put, Tenacity.retry. apply attempts_return.
    rewrite put_attempt_eq. unfold w2, w1, attempted, called. cbn [script].
    rewrite Hs. reflexivity. }
  rewrite Hput. unfold logged, w2, w1, attempted, called.
  cbn [log bucket script trace]. rewrite Hs. cbn [tl].
  rewrite <- !app_assoc. reflexivity.
Qed.


(** X10. With a transport that serves, an object that is there and no
    record yet, a task is three requests, the head, one get and one put
    (the last two after a sleep of [1 / GET_LIMIT] each), after which the
    bucket holds the record and the log the upload. *)
Theorem X10_upload_in_three_requests
    (object_key : string) (content : list byte) (w : world) :
  script w = [] ->
  bucket w !! (object_key ++ ".md5")%string = None ->
  bucket w !! object_key = Some content ->
  process_file object_key w
  = (inr tt,
     {| bucket := <[(object_key ++ ".md5")%string :=
                      checksum_record (MD5.md5_reference content) object_key]>
                   (bucket w);
        script := [];
        trace := trace w
                 ++ [Call (HeadObject (object_key ++ ".md5"));
                     Sleep (1 / GET_LIMIT); Call (GetObject object_key);
                     Sleep (1 / GET_LIMIT);
                     Call (PutObject (object_key ++ ".md5")
                             (checksum_record (MD5.md5_reference content)
                                              object_key))];
        log := log w ++ [Uploaded object_key (object_key ++ ".md5")] |}).
Proof. apply process_file_three_requests. Qed.

Lemma X10_upload_in_three_requests_witness :
  script (fresh one_object) = []
  /\ bucket (fresh one_object) !! ("a.dat" ++ ".md5")%string = None
  /\ bucket (fresh one_object) !! "a.dat"%string = Some (bytes_of "hello world")
  /\ log (snd (process_file "a.dat" (fresh one_object)))
     = [Uploaded "a.dat" "a.dat.md5"].
Proof.
  assert (H1 : bucket (fresh one_object) !! ("a.dat" ++ ".md5")%string = None)
    by (vm_compute; reflexivity).
  assert (H2 : bucket (fresh one_object) !! "a.dat"%string
               = Some (bytes_of "hello world")) by (vm_compute; reflexivity).
  split; [reflexivity|]. split; [exact H1|]. split; [exact H2|].
  rewrite (X10_upload_in_three_requests "a.dat" (bytes_of "hello world")
             (fresh one_object) eq_refl H1 H2).
  reflexivity.
Defined.

Lemma process_file_skips (object_key : string) (record : list byte) (w : world) :
  script w = [] ->
  bucket w !! (object_key ++ ".md5")%string = Some record ->
  process_file object_key w
  = (inr tt, {| bucket := bucket w; script := [];
                trace := trace w ++ [Call (HeadObject (object_key ++ ".md5"))];
                log := log w ++ [Skipping object_key] |}).
Proof.
  intros Hs Hmd5.
  rewrite process_file_eq, process_file_body_eq. cbv zeta.
  rewrite head_object_eq, Hs, Hmd5. cbn [hd fst].
  unfold logged, called. cbn [bucket script trace log]. rewrite Hs. reflexivity.
Qed.

(** X11. A task run again on the key it has just uploaded is a skip: the
    second run sends the head request and nothing else, and the bucket
    keeps the record of the first. *)
Theorem X11_second_task_skips
    (object_key : string) (content : list byte) (w : world) :
  script w = [] ->
  bucket w !! (object_key ++ ".md5")%string = None ->
  bucket w !! object_key = Some content ->
  let w1 := snd (process_file object_key w) in
  process_file object_key w1
  = (inr tt, {| bucket := bucket w1; script := [];
                trace := trace w1 ++ [Call (HeadObject (object_key ++ ".md5"))];
                log := log w ++ [Uploaded object_key (object_key ++ ".md5");
                                 Skipping object_key] |}).
Proof.
  intros Hs Hmd5 Hkey w1. subst w1.
  rewrite (process_file_three_requests object_key content w Hs Hmd5 Hkey).
  cbn [snd].
  rewrite (process_file_skips object_key
             (checksum_record (MD5.md5_reference content) object_key));
    [|reflexivity|cbn [bucket]; apply lookup_insert_eq].
  cbn [bucket trace log]. rewrite <- (app_assoc (log w)). reflexivity.
Qed.

Lemma X11_second_task_skips_witness :
  script (fresh one_object) = []
  /\ bucket (fresh one_object) !! ("a.dat" ++ ".md5")%string = None
  /\ bucket (fresh one_object) !! "a.dat"%string = Some (bytes_of "hello world")
  /\ log (snd (process_file "a.dat" (snd (process_file "a.dat" (fresh one_object)))))
     = [Uploaded "a.dat" "a.dat.md5"; Skipping "a.dat"].
Proof.
  assert (H1 : bucket (fresh one_object) !! ("a.dat" ++ ".md5")%string = None)
    by (vm_compute; reflexivity).
  assert (H2 : bucket (fresh one_object) !! "a.dat"%string
               = Some (bytes_of "hello world")) by (vm_compute; reflexivity).
  split; [reflexivity|]. split; [exact H1|]. split; [exact H2|].
  rewrite (X11_second_task_skips "a.dat" (bytes_of "hello world")
             (fresh one_object) eq_refl H1 H2).
  reflexivity.
Defined.

(** ** A missing object *)

Lemma get_missing (object_key : string) (k : nat) :
  forall (i : nat) (w : world),
    script w = [] ->
    bucket w !! object_key = None ->
    policy k i (sleep (1 / GET_LIMIT) ;; get_object object_key) w
    = (inl (RetryError (ClientError "NoSuchKey")),
       attempted (GetObject object_key)
                 (after_failures (GetObject object_key) i k w)).
Proof.
  induction k as [|k IH]; intros i w Hs Hkey; unfold policy.
  - apply attempts_stop; [|reflexivity].
    rewrite get_attempt_eq, Hs, Hkey. reflexivity.
  - rewrite (attempts_again _ _ _ k i w (attempted (GetObject object_key) w)
               (ClientError "NoSuchKey"));
      [|rewrite get_attempt_eq, Hs, Hkey; reflexivity|reflexivity].
    apply (IH (S i) (backed_off i (attempted (GetObject object_key) w))).
    + cbn [backed_off attempted script]. rewrite Hs. reflexivity.
    + exact Hkey.
Qed.

(** X4. A task for a key the store does not hold (and that has no record)
    gets the not-found answer five times, sleeping 1, 2, 4 and 8 seconds in
    between, and ends as a failure that carries tenacity's [RetryError];
    the bucket is left as it was. *)
Theorem X4_missing_object_fails_after_five_gets (object_key : string) (w : world) :
  script w = [] ->
  bucket w !! (object_key ++ ".md5")%string = None ->
  bucket w !! object_key = None ->
  process_file object_key w
  = (inr tt, logged (Failed object_key (RetryError (ClientError "NoSuchKey")))
                    (five_attempts (GetObject object_key)
                       (called (HeadObject (object_key ++ ".md5")) w)))
  /\ bucket (snd (process_file object_key w)) = bucket w
  /\ calls (trace (snd (process_file object_key w)))
     = (calls (trace w)
        ++ HeadObject (object_key ++ ".md5") :: repeat (GetObject object_key) 5)%list.
Proof.
  intros Hs Hmd5 Hkey.
  assert (Hrun : process_file object_key w
                 = (inr tt, logged (Failed object_key
                                      (RetryError (ClientError "NoSuchKey")))
                                   (five_attempts (GetObject object_key)
                                      (called (HeadObject (object_key ++ ".md5")) w)))).
  { rewrite process_file_eq, process_file_body_eq. cbv zeta.
    rewrite head_object_eq, Hs, Hmd5. cbn [hd fst String.eqb Ascii.eqb Bool.eqb].
    rewrite upload_steps_eq, rate_limited_get_policy.
    rewrite get_missing; [reflexivity| |exact Hkey].
    cbn [called script]. rewrite Hs. reflexivity. }
  rewrite Hrun. cbn [snd]. split; [reflexivity|]. split.
  - unfold logged, five_attempts, attempted. cbn [bucket].
    destruct (after_failures_fields (GetObject object_key) 4 1
                (called (HeadObject (object_key ++ ".md5")) w)) as (-> & _).
    reflexivity.
  - unfold logged. cbn [trace]. rewrite five_attempts_calls.
    unfold called. cbn [trace]. rewrite calls_app, <- app_assoc. reflexivity.
Qed.

Lemma X4_missing_object_fails_after_five_gets_witness :
  script (fresh one_object) = []
  /\ bucket (fresh one_object) !! ("missing.dat" ++ ".md5")%string = None
  /\ bucket (fresh one_object) !! "missing.dat"%string = None
  /\ bucket (snd (process_file "missing.dat" (fresh one_object)))
     = bucket (fresh one_object).
Proof.
  assert (H1 : bucket (fresh one_object) !! ("missing.dat" ++ ".md5")%string = None)
    by (vm_compute; reflexivity).
  assert (H2 : bucket (fresh one_object) !! "missing.dat"%string = None)
    by (vm_compute; reflexivity).
  split; [reflexivity|]. split; [exact H1|]. split; [exact H2|].
  exact (proj1 (proj2 (X4_missing_object_fails_after_five_gets "missing.dat"
                         (fresh one_object) eq_refl H1 H2))).
Defined.

(** ** The enumeration *)

Lemma substring_split (s : string) :
  forall k : nat,
    (k <= String.length s)%nat ->
    s = (substring 0 k s ++ substring k (String.length s - k) s)%string.
Proof.
  induction s as [|c s IH]; intros k Hk.
  - destruct k; [reflexivity|cbn in Hk; lia].
  - destruct k as [|k].
    + cbn [substring String.append String.length Nat.sub].
      rewrite substring_all. reflexivity.
    + cbn [substring String.length Nat.sub].
      change (String c s
              = String c (substring 0 k s ++ substring k (String.length s - k) s)).
      rewrite <- IH; [reflexivity|]. cbn [String.length] in Hk. lia.
Qed.

Lemma endswith_inv (s suffix : string) :
  endswith s suffix = true -> exists stem : string, s = (stem ++ suffix)%string.
Proof.
  unfold endswith. intros H. apply andb_true_iff in H as [Hle Heq].
  apply Nat.leb_le in Hle. apply String.eqb_eq in Heq.
  exists (substring 0 (String.length s - String.length suffix) s).
  rewrite <- Heq at 2.
  rewrite (substring_split s (String.length s - String.length suffix)) at 1 by lia.
  f_equal. f_equal. lia.
Qed.

Section Enumeration.
Context `{L : StrLower}.

Lemma kept_key_iff (Key : string) :
  kept_key Key = true
  <-> ~ exists stem ext : string,
        In ext SKIP_EXTENSIONS /\ lower Key = (stem ++ ext)%string.
Proof.
  unfold kept_key, endswith_any. rewrite negb_true_iff. split.
  - intros Hno (stem & ext & Hext & Hlower).
    rewrite Hlower in Hno.
    assert (Hyes : existsb (endswith (stem ++ ext)) SKIP_EXTENSIONS = true).
    { apply existsb_exists. exists ext. split; [exact Hext|apply endswith_append]. }
    congruence.
  - intros Hno. destruct (existsb _ _) eqn:Hex; [|reflexivity].
    exfalso. apply Hno. apply existsb_exists in Hex as (ext & Hext & Hend).
    apply endswith_inv in Hend as (stem & Hstem).
    exists stem, ext. split; assumption.
Qed.

(** X1. With a transport that serves, [list_files] yields, in the order of
    the store, every key under the prefix whose lower-case form does not end
    with one of [SKIP_EXTENSIONS], and no other; it leaves the bucket and
    the log as they are. *)
Theorem X1_list_files_yields_the_rest (Prefix : string) (w : world) :
  script w = [] ->
  exists (keys : list string) (w' : world),
    list_files Prefix w = (inr keys, w')
    /\ keys = List.filter kept_key (listing Prefix (bucket w))
    /\ same_store w w'
    /\ (forall Key : string,
          In Key keys
          <-> In Key (listing Prefix (bucket w))
              /\ ~ exists stem ext : string,
                    In ext SKIP_EXTENSIONS /\ lower Key = (stem ++ ext)%string).
Proof.
  intros Hs.
  destruct (list_files_serves Prefix w Hs) as (w' & Hrun & _ & Hsame).
  eexists _, w'. split; [exact Hrun|]. split; [reflexivity|]. split; [exact Hsame|].
  intros Key. rewrite filter_In, kept_key_iff. reflexivity.
Qed.


Lemma paginate_from_cons (keys : list string) :
  forall (room : nat) (page : list string),
    exists (first : list string) (later : list (list string)),
      paginate_from room page keys = first :: later.
Proof.
  induction keys as [|k keys IH]; intros room page; cbn [paginate_from].
  - eexists _, _. reflexivity.
  - destruct room as [|room]; [eexists _, _; reflexivity|apply IH].
Qed.


(** X3. A listing request that fails is not retried: [list_files] raises
    the exception of the transport after that single request, with no sleep
    and no key yielded. *)
Theorem X3_failed_listing_is_not_retried (Prefix : string) (w : world) (e : exn) :
  hd (Serve []) (script w) = Raise e ->
  list_files Prefix w = (inl e, called (ListObjectsV2 Prefix) w).
Proof.
  intros Hw. unfold list_files, paginate, mbind, M_bind, bind.
  destruct (paginate_from_cons (listing Prefix (bucket w)) MaxKeys [])
    as (first & later & ->).
  rewrite list_pages_eq, Hw. reflexivity.
Qed.

End Enumeration.

Lemma X1_list_files_yields_the_rest_witness :
  script (fresh mixed_case) = []
  /\ fst (list_files "" (fresh mixed_case)) = inr ["a.dat"%string].
Proof.
  split; [reflexivity|].
  destruct (X1_list_files_yields_the_rest (L := ascii_keys) "" (fresh mixed_case)
              eq_refl) as (keys & w' & Hrun & Hkeys & _).
  rewrite Hrun, Hkeys. vm_compute. reflexivity.
Defined.


Lemma X3_failed_listing_is_not_retried_witness :
  hd (Serve []) (script unreachable) = Raise (OtherException "EndpointConnectionError")
  /\ list_files "" unreachable
     = (inl (OtherException "EndpointConnectionError"),
        {| bucket := one_object; script := [];
           trace := [Call (ListObjectsV2 "")]; log := [] |}).
Proof.
  split; [reflexivity|].
  exact (X3_failed_listing_is_not_retried (L := ascii_keys) "" unreachable
           (OtherException "EndpointConnectionError") eq_refl).
Defined.
